(** * DataInput and PlotDisplay of the randomization-test simulator

    A shallow embedding of [DataInput.tsx] (the data grid: placeholder
    effect, CSV import, treatment-effect imputation, column renaming,
    column averages) and of the statistic read-outs of [PlotDisplay.tsx].

    JavaScript values are modelled as the code sees them:
    - a [number] is a member of an abstract interface [JsNumber] (the double
      arithmetic of the host is not fixed here; the theorems hold for every
      implementation of [+], unary [-] and [/]);
    - a row's [data] array is a list of slots, a slot being a hole,
      [undefined], [null] or a number, so that reads and writes outside the
      array behave as they do in JavaScript;
    - a handler that calls actions of the simulation context yields the list
      of calls it makes, or the exception it throws. *)

From Stdlib Require Import QArith Qabs Qround Ascii String.
From stdpp Require Import gmap strings list pretty.

Close Scope Q_scope.

(** ** Numbers *)

(** Row assignments are produced by [parseInt] and by the 0/1 toggle of the
    grid: integers, or NaN. *)
Inductive jsint :=
  | JInt (z : Z)
  | JNaN.

Class JsNumber := {
  number : Type;
  nan : number;
  add : number -> number -> number;      (* a + b *)
  neg : number -> number;                (* -a *)
  divide : number -> number -> number;   (* a / b *)
  of_nat : nat -> number;                (* a literal, or an array length *)
  isNaN : number -> bool;
  Number : string -> number;             (* Number(s) *)
  parseInt : string -> jsint;            (* parseInt(s, 10) *)
}.

(** Exact rational arithmetic, with [None] for NaN: the numbers used to
    evaluate the handlers on concrete grids.  [Number] and [parseInt] read
    unsigned decimal integer literals. *)
Module Rational.

Definition lift2 (f : Q -> Q -> Q) (a b : option Q) : option Q :=
  match a, b with
  | Some x, Some y => Some (Qred (f x y))
  | _, _ => None
  end.

Definition quotient (a b : option Q) : option Q :=
  match a, b with
  | Some x, Some y => if Qeq_bool y 0 then None else Some (Qred (x / y))
  | _, _ => None
  end.

Definition digit (c : ascii) : option Z :=
  let n := Z.of_N (N_of_ascii c) in
  if ((48 <=? n) && (n <=? 57))%Z then Some (n - 48)%Z else None.

Fixpoint digits (acc : Z) (s : string) : option Z :=
  match s with
  | EmptyString => Some acc
  | String c s' =>
      match digit c with
      | Some d => digits (10 * acc + d)%Z s'
      | None => None
      end
  end.

Definition literal (s : string) : option Z :=
  match s with
  | EmptyString => None
  | _ => digits 0 s
  end.

Definition numbers : JsNumber := {|
  number := option Q;
  nan := None;
  add := lift2 Qplus;
  neg := fun a => match a with Some x => Some (Qred (- x)) | None => None end;
  divide := quotient;
  of_nat := fun n => Some (inject_Z (Z.of_nat n));
  isNaN := fun a => match a with Some _ => false | None => true end;
  Number := fun s => match literal s with Some z => Some (inject_Z z) | None => None end;
  parseInt := fun s => match literal s with Some z => JInt z | None => JNaN end;
|}.

End Rational.

(** ** Strings

    [split], [trim] and [slice] of JavaScript strings, on strings of
    characters with codes below 256. *)

(** [s.split(sep)] for a one-character separator: the pieces between the
    separators, always at least one. *)
Fixpoint split_from (sep : ascii) (piece : string) (s : string) : list string :=
  match s with
  | EmptyString => [String.rev piece]
  | String c s' =>
      if Ascii.eqb c sep then String.rev piece :: split_from sep EmptyString s'
      else split_from sep (String c piece) s'
  end.

Definition split (sep : ascii) (s : string) : list string :=
  split_from sep EmptyString s.

(** White space and line terminators of ECMAScript in this range: tab, line
    feed, vertical tab, form feed, carriage return, space, no-break space. *)
Definition is_white (c : ascii) : bool :=
  let n := N_of_ascii c in
  (((9 <=? n) && (n <=? 13)) || (n =? 32) || (n =? 160))%N.

Fixpoint trim_start (s : string) : string :=
  match s with
  | EmptyString => EmptyString
  | String c s' => if is_white c then trim_start s' else s
  end.

Definition trim (s : string) : string :=
  String.rev (trim_start (String.rev (trim_start s))).

(** [s.slice(0, n)]: the first [n] characters, or all of [s] when it has
    fewer. *)
Definition slice0 (n : nat) (s : string) : string := substring 0 n s.

Definition newline : ascii := ascii_of_nat 10.
Definition comma : ascii := ascii_of_nat 44.

(** ** Results of a call *)

Inductive Outcome (A : Type) :=
  | Returned (a : A)
  | Threw (error : string).
Arguments Returned {A} a.
Arguments Threw {A} error.

(** What a read-out shows: a fixed text, or [v.toFixed(digits)]. *)
Inductive Display (A : Type) :=
  | Text (s : string)
  | Fixed (digits : nat) (v : A).
Arguments Text {A} s.
Arguments Fixed {A} digits v.

Section DataInput.
Context {N : JsNumber}.

(** ** Arrays of cells *)

Inductive slot :=
  | Hole                  (* an index below [length] that was never written *)
  | Undefined
  | Null
  | Num (v : number).

(** [cell === null] *)
Definition is_null (s : slot) : bool :=
  match s with Null => true | _ => false end.

Definition is_hole (s : slot) : bool :=
  match s with Hole => true | _ => false end.

(** [d.some(cell => cell === null)]; [some], [every] and [forEach] do not
    visit holes. *)
Definition some_null (d : list slot) : bool :=
  existsb (fun s => negb (is_hole s) && is_null s) d.

(** [d.every(cell => cell === null)] *)
Definition every_null (d : list slot) : bool :=
  forallb (fun s => is_hole s || is_null s) d.

(** The array indices: integers from 0 to 2^32 - 2.  Any other key names an
    ordinary property of the array object. *)
Definition array_index (i : jsint) : option nat :=
  match i with
  | JInt z => if ((0 <=? z) && (z <? 4294967295))%Z then Some (Z.to_nat z) else None
  | JNaN => None
  end.

(** [d[i]] read from a fresh copy [d]: a hole or an index out of range
    reads as [undefined]. *)
Definition read (d : list slot) (i : jsint) : slot :=
  match array_index i with
  | Some k =>
      match d !! k with
      | Some Hole | None => Undefined
      | Some s => s
      end
  | None => Undefined
  end.

(** [d[i] = s]: inside the array the element is replaced; at or beyond
    [length] the array grows, leaving holes below the new element; a key
    that is not an array index leaves the elements as they are. *)
Definition write (d : list slot) (i : jsint) (s : slot) : list slot :=
  match array_index i with
  | Some k =>
      if k <? length d then <[k := s]> d
      else d ++ replicate (k - length d) Hole ++ [s]
  | None => d
  end.

(** [[...d]]: the copy has [undefined] where [d] has a hole. *)
Definition spread (d : list slot) : list slot :=
  map (fun s => match s with Hole => Undefined | _ => s end) d.

(** [s + x] and [x + s] for a slot value [s] and a number [x]:
    [undefined] makes the sum NaN, [null] counts as 0. *)
Definition slot_plus (s : slot) (x : number) : number :=
  match s with
  | Num v => add v x
  | Null => add (of_nat 0) x
  | Undefined | Hole => nan
  end.

Definition plus_slot (x : number) (s : slot) : number :=
  match s with
  | Num v => add x v
  | Null => add x (of_nat 0)
  | Undefined | Hole => nan
  end.

(** [1 - i] and [i === k] on assignments. *)
Definition one_minus (i : jsint) : jsint :=
  match i with
  | JInt z => JInt (1 - z)
  | JNaN => JNaN
  end.

Definition same_index (i : jsint) (k : nat) : bool :=
  match i with
  | JInt z => (z =? Z.of_nat k)%Z
  | JNaN => false
  end.

(** ** The data of the grid *)

Record DataRow := {
  data : list slot;
  assignment : jsint;
}.

Record UserDataState := {
  rows : list DataRow;
  controlColumnIndex : Z;
  columnNames : list string;
}.

(** One simulated trial, as far as the grid reads it ([result.rows]). *)
Record SimulationResult := {
  trialRows : list DataRow;
}.

(** What [useSimulationContext()] hands to the component. *)
Record SimulationContext := {
  userData : UserDataState;
  simulationResults : option (list SimulationResult);
  isSimulating : bool;
}.

(** The calls of [dataActions] made by the handlers below. *)
Inductive DataAction :=
  | SetUserData (newState : UserDataState)
  | AddRow
  | RenameColumn (index : nat) (name : string).

(** [Array(n).fill(null)] with [assignment: 0]. *)
Definition emptyRow (n : nat) : DataRow :=
  {| data := replicate n Null; assignment := JInt 0 |}.

(** ** dataToDisplay *)

Definition dataToDisplay (ctx : SimulationContext) : Outcome (list DataRow) :=
  match isSimulating ctx, simulationResults ctx with
  | true, Some (result :: results) =>
      let lastSimulationResult := trialRows (List.last results result) in
      match lastSimulationResult with
      | first :: _ =>
          let dummyRow := emptyRow (length (data first)) in
          Returned (lastSimulationResult ++ [dummyRow])
      | [] => Threw "TypeError"
      end
  | _, _ => Returned (rows (userData ctx))
  end.

(** ** The placeholder effect *)

(** [rows[rows.length - 1]] for a non-empty [rows]. *)
Definition last_row (rs : list DataRow) : option DataRow := last rs.

Definition needsPlaceholder (ctx : SimulationContext) : bool :=
  negb (isSimulating ctx) &&
  match last_row (rows (userData ctx)) with
  | None => true                                  (* rows.length === 0 *)
  | Some row => negb (some_null (data row))
  end.

Definition placeholderEffect (ctx : SimulationContext) : Outcome (list DataAction) :=
  if needsPlaceholder ctx then Returned [AddRow] else Returned [].

(** ** handleFileUpload *)

Definition parseLine (line : string) : DataRow :=
  let values := map trim (split comma line) in
  let popped := List.last values "" in
  let assignment := parseInt (if String.eqb popped "" then "0" else popped) in
  let data := map (fun value => if String.eqb value "" then Null else Num (Number value))
                  (removelast values) in
  {| data := data; assignment := assignment |}.

Definition parseRows (text : string) : list DataRow :=
  let lines := filter (fun line => trim line ≠ "") (split newline text) in
  map parseLine lines.

(** [file] is the text of the chosen file, if one was chosen.  With no
    line to parse, [Math.max()] is [-Infinity] and [Array(-Infinity)]
    throws. *)
Definition handleFileUpload (ctx : SimulationContext) (file : option string)
  : Outcome (list DataAction) :=
  if isSimulating ctx then Returned [] else
  match file with
  | None => Returned []
  | Some text =>
      let rows := parseRows text in
      match rows with
      | [] => Threw "RangeError"
      | _ =>
          let dataColumnCount := max_list (map (fun row => length (data row)) rows) in
          Returned [SetUserData {|
            rows := rows ++ [emptyRow dataColumnCount];
            controlColumnIndex := 0;
            columnNames := columnNames (userData ctx) |}]
      end
  end.

(** ** applyTreatmentEffect *)

Definition is_zero (i : jsint) : bool := same_index i 0.

Definition imputeRow (effect : number) (row : DataRow) : DataRow :=
  let newData := spread (data row) in
  let referenceIndex := assignment row in
  let otherIndex := one_minus referenceIndex in
  let filled :=
    if negb (is_null (read newData referenceIndex)) then
      let referenceValue := read newData referenceIndex in
      write newData otherIndex
        (Num (slot_plus referenceValue (if is_zero referenceIndex then effect else neg effect)))
    else if negb (is_null (read newData otherIndex)) then
      let otherValue := read newData otherIndex in
      write newData referenceIndex
        (Num (slot_plus otherValue (if is_zero referenceIndex then neg effect else effect)))
    else newData in
  {| data := filled; assignment := assignment row |}.

Definition imputeRows (effect : number) (rs : list DataRow) : list DataRow :=
  imap (fun rowIndex row =>
          if rowIndex =? length rs - 1 then row else imputeRow effect row) rs.

Definition applyTreatmentEffect (ctx : SimulationContext) (effect : number)
  : Outcome (list DataAction) :=
  if isSimulating ctx then Returned [] else
  let newData := {|
    rows := imputeRows effect (rows (userData ctx));
    controlColumnIndex := controlColumnIndex (userData ctx);
    columnNames := columnNames (userData ctx) |} in
  Returned [SetUserData newData].

(** A well-formed observation of the two-group grid: two slots, each
    [null] or a number, assigned to slot 0 or slot 1. *)
Definition plain (s : slot) : bool :=
  match s with Null | Num _ => true | Hole | Undefined => false end.

Definition observation (row : DataRow) : Prop :=
  ∃ control treatment,
    data row = [control; treatment]
    ∧ plain control = true ∧ plain treatment = true
    ∧ (assignment row = JInt 0 ∨ assignment row = JInt 1).

(** ** handleColumnNameChange *)

Definition handleColumnNameChange (ctx : SimulationContext) (index : nat) (value : string)
  : Outcome (list DataAction) :=
  if isSimulating ctx then Returned [] else
  Returned [RenameColumn index (slice0 20 value)].

(** ** calculateColumnAverages *)

(** [if (!acc[colIndex]) acc[colIndex] = []; acc[colIndex].push(value)] *)
Definition push (acc : gmap nat (list slot)) (colIndex : nat) (value : slot)
  : gmap nat (list slot) :=
  let acc := match acc !! colIndex with
             | Some _ => acc
             | None => <[colIndex := []]> acc
             end in
  match acc !! colIndex with
  | Some group => <[colIndex := group ++ [value]]> acc
  | None => acc
  end.

(** [row.data.forEach((value, colIndex) => ...)], from column [colIndex]
    on. *)
Fixpoint collect (assigned : jsint) (colIndex : nat) (d : list slot)
    (acc : gmap nat (list slot)) : gmap nat (list slot) :=
  match d with
  | [] => acc
  | value :: d' =>
      let acc :=
        if negb (is_hole value) && negb (is_null value) && same_index assigned colIndex
        then push acc colIndex value
        else acc in
      collect assigned (S colIndex) d' acc
  end.

(** The body of [rows.reduce((acc, row, index) => ..., {})], from row
    [index] on; [n] is [rows.length]. *)
Fixpoint groupRows (n index : nat) (rs : list DataRow)
    (acc : gmap nat (list slot)) : gmap nat (list slot) :=
  match rs with
  | [] => acc
  | row :: rs' =>
      let acc :=
        if (index =? n - 1) && every_null (data row) then acc
        else collect (assignment row) 0 (data row) acc in
      groupRows n (S index) rs' acc
  end.

(** [group.reduce((sum, value) => sum + value, 0) / group.length], or
    [null] for an empty group. *)
Definition average (group : list slot) : option number :=
  if 0 <? length group
  then Some (divide (foldl plus_slot (of_nat 0) group)
                    (of_nat (length group)))
  else None.

Definition calculateColumnAverages (names : list string) (rs : list DataRow)
  : list (option number) :=
  let groups := groupRows (length rs) 0 rs ∅ in
  imap (fun index _ => average (default [] (groups !! index))) names.

(** [useMemo(() => calculateColumnAverages(dataToDisplay), ...)] *)
Definition columnAverages (ctx : SimulationContext) : Outcome (list (option number)) :=
  match dataToDisplay ctx with
  | Returned displayed =>
      Returned (calculateColumnAverages (columnNames (userData ctx)) displayed)
  | Threw error => Threw error
  end.

(** The cells of the [ColumnAverages] strip. *)
Definition ColumnAverages (averages : list (option number)) : list (Display number) :=
  map (fun average =>
         match average with
         | Some v => Fixed 2 v
         | None => Text "--"
         end) averages.

(** ** The read-outs of PlotDisplay *)

Definition observedStatisticDisplay (observedStatistic : option number) : Display number :=
  match observedStatistic with
  | Some v => Fixed 4 v
  | None => Text "N/A"
  end.

Definition pValueDisplay (pValue : option number) : Display number :=
  match pValue with
  | Some v => if negb (isNaN v) then Fixed 4 v else Text "N/A"
  | None => Text "N/A"
  end.

(** ** What the averages are meant to be *)

(** What a row is meant to add to the group of column [c]: the value of
    its slot [c], provided the row is assigned to [c] and the slot holds
    one. *)
Definition contribution (c : nat) (row : DataRow) : list slot :=
  if same_index (assignment row) c then
    match data row !! c with
    | Some value => if is_hole value || is_null value then [] else [value]
    | None => []
    end
  else [].

Definition contributions (c : nat) (rs : list DataRow) : list slot :=
  flat_map (contribution c) rs.

End DataInput.

(** ** The simulation context

    [SimulationContext.tsx], which implements [dataActions] and the run
    controller, is not among the sources; what the claims need of it follows
    the specification. *)

Section SimulationStore.
Context {N : JsNumber}.

(** Modelled from the spec: the History Manager's two stacks around the
    current DataSet (the provider of [undo] and [redo] is missing from the
    sources). *)
Record History := {
  past : list UserDataState;
  present : UserDataState;
  future : list UserDataState;
}.

(** Modelled from the spec: [record(previous, next)] pushes [previous] onto
    the past stack whenever a mutation is applied, and clears the future
    stack (missing from the sources). *)
Definition record (next : UserDataState) (h : History) : History :=
  {| past := present h :: past h; present := next; future := [] |}.

(** Modelled from the spec: [undo()] pops past, applies it and pushes the
    just-left state onto future; it returns the unchanged state if past is
    empty (missing from the sources). *)
Definition undo (h : History) : History :=
  match past h with
  | previous :: older =>
      {| past := older; present := previous; future := present h :: future h |}
  | [] => h
  end.

(** Modelled from the spec: [redo()] is the mirror operation of [undo()] on
    the future stack (missing from the sources). *)
Definition redo (h : History) : History :=
  match future h with
  | next :: later =>
      {| past := present h :: past h; present := next; future := later |}
  | [] => h
  end.

(** Modelled from the spec: [addRow()] appends a fresh fully-absent
    placeholder row, of the [G = columnNames.length] slots of an
    observation (missing from the sources). *)
Definition addRow (s : UserDataState) : UserDataState :=
  {| rows := rows s ++ [emptyRow (length (columnNames s))];
     controlColumnIndex := controlColumnIndex s;
     columnNames := columnNames s |}.

(** Modelled from the spec: [renameColumn(index, name)] stores the name
    truncated to 20 characters; an index out of range fails with
    [IndexError] (missing from the sources). *)
Definition renameColumn (index : nat) (name : string) (s : UserDataState)
  : Outcome UserDataState :=
  if index <? length (columnNames s)
  then Returned {| rows := rows s;
                   controlColumnIndex := controlColumnIndex s;
                   columnNames := <[index := slice0 20 name]> (columnNames s) |}
  else Threw "IndexError".

(** Modelled from the spec: [setUserData(newState)] is a wholesale replace
    (missing from the sources). *)
Definition setUserData (newState : UserDataState) (s : UserDataState) : UserDataState :=
  newState.

(** Modelled from the spec: every mutator is wrapped by the History
    Manager; a failed operation leaves the prior state intact (missing from
    the sources). *)
Definition dispatch (h : History) (call : DataAction) : History :=
  match call with
  | SetUserData newState => record (setUserData newState (present h)) h
  | AddRow => record (addRow (present h)) h
  | RenameColumn index name =>
      match renameColumn index name (present h) with
      | Returned next => record next h
      | Threw _ => h
      end
  end.

(** The store after a handler has run. *)
Definition after (h : History) (outcome : Outcome (list DataAction)) : History :=
  match outcome with
  | Returned calls => foldl dispatch h calls
  | Threw _ => h
  end.

(** The context a component sees for a store, outside or inside a run. *)
Definition contextOf (h : History) (running : bool) : SimulationContext :=
  {| userData := present h; simulationResults := None; isSimulating := running |}.

(** The context once the run has ended ([cancel()] or completion): the
    same data, no longer simulating. *)
Definition released (ctx : SimulationContext) : SimulationContext :=
  {| userData := userData ctx;
     simulationResults := simulationResults ctx;
     isSimulating := false |}.

(** A sequence of mutations, given by the DataSets they produce in order. *)
Definition recordAll (h : History) (states : list UserDataState) : History :=
  foldl (fun h next => record next h) h states.

Definition withFuture (h : History) (later : list UserDataState) : History :=
  {| past := past h; present := present h; future := later |}.

End SimulationStore.

(** Modelled from the spec: a trial's statistic, [None] being the sentinel of
    a degenerate trial, is extreme when [|trialStat| >= |observedStat|]; the
    sentinel is excluded from the extremity count (the run controller is
    missing from the sources). *)
Definition extreme (observedStatistic : Q) (trial : option Q) : bool :=
  match trial with
  | Some statistic => Qle_bool (Qabs observedStatistic) (Qabs statistic)
  | None => false
  end.

(** Modelled from the spec: [pValue] is the fraction of trials at least as
    extreme as the observed statistic, and undefined when zero trials exist
    (the run controller is missing from the sources). *)
Definition pValue (observedStatistic : Q) (trials : list (option Q)) : option Q :=
  match trials with
  | [] => None
  | _ => Some (Qmake (Z.of_nat (length (filter (fun t => extreme observedStatistic t = true) trials)))
                      (Pos.of_nat (length trials)))
  end.

(** ** More of the grid and of the plot *)

(** How often [c] occurs in [s], and whether [s] is white space only. *)
Fixpoint count_char (c : ascii) (s : string) : nat :=
  match s with
  | EmptyString => 0
  | String c' s' => (if Ascii.eqb c' c then 1 else 0) + count_char c s'
  end.

Fixpoint all_white (s : string) : bool :=
  match s with
  | EmptyString => true
  | String c s' => is_white c && all_white s'
  end.

Section Rendering.
Context {N : JsNumber}.

(** The context with another DataSet in place: what the component sees once
    a [setUserData] call has been taken up. *)
Definition withUserData (ctx : SimulationContext) (newState : UserDataState)
  : SimulationContext :=
  {| userData := newState;
     simulationResults := simulationResults ctx;
     isSimulating := isSimulating ctx |}.

(** An observation whose measured outcome is in place: the slot it is
    assigned to holds a value, or the row is still fully absent. *)
Definition measured (row : DataRow) : Prop :=
  observation row
  ∧ (is_null (read (data row) (assignment row)) = false ∨ data row = [Null; Null]).

(** *** renderRows *)

(** What [renderRows] puts into the table body: a [<TableRow>] with its
    [index], [row], [isUnactivated] and whether it carries [toggleCollapse],
    or the expand button with the number of rows it announces. *)
Inductive RenderedRow :=
  | TableRow (index : nat) (row : DataRow) (isUnactivated : bool) (toggleCollapse : bool)
  | ExpandButton (hidden : nat).

Definition renderRows (displayed : list DataRow) (isCollapsed : bool) : list RenderedRow :=
  let shouldIgnoreCollapse := length displayed <=? 5 in
  let rows :=
    imap (fun index row =>
            TableRow index row
              (index =? length displayed - 1)
              (index =? length displayed - 1)) displayed in
  if isCollapsed && negb shouldIgnoreCollapse then
    let expandButton := ExpandButton (length displayed - 4) in
    match rows !! 0, rows !! 1, rows !! (length rows - 2), rows !! (length rows - 1) with
    | Some first, Some second, Some beforeLast, Some lastOne =>
        [first; second; expandButton; beforeLast; lastOne]
    | _, _, _, _ => []        (* not reached: there are more than 5 rows *)
    end
  else rows.

End Rendering.

(** *** calculatePlotData *)

(** The further operations on numbers that the plot uses. *)
Class JsMath (N : JsNumber) := {
  subtract : number -> number -> number;   (* a - b *)
  floor : number -> number;                (* Math.floor(a) *)
  minimum : number -> number -> number;    (* Math.min(a, b) *)
  maximum : number -> number -> number;    (* Math.max(a, b) *)
  propertyKey : number -> string;          (* the key of acc[a] *)
}.

Section PlotDisplay.
Context {N : JsNumber} {M : JsMath N}.

Definition numBins : nat := 20.

(** [Math.min(...simulationData, observedStat) - 1] and
    [Math.max(...simulationData, observedStat) + 1] *)
Definition minResult (simulationData : list number) (observedStat : number) : number :=
  subtract (foldr minimum observedStat simulationData) (of_nat 1).

Definition maxResult (simulationData : list number) (observedStat : number) : number :=
  add (foldr maximum observedStat simulationData) (of_nat 1).

Definition binSize (simulationData : list number) (observedStat : number) : number :=
  divide (subtract (maxResult simulationData observedStat)
                   (minResult simulationData observedStat))
         (of_nat numBins).

(** [Math.floor((val - minResult) / binSize)], as the key of [acc]. *)
Definition binOf (low size val : number) : string :=
  propertyKey (floor (divide (subtract val low) size)).

(** [simulationData.reduce((acc, val) => { ...; acc[bin] = (acc[bin] || 0) + 1;
    return acc }, {})] *)
Definition countBins (low size : number) (simulationData : list number) : gmap string nat :=
  foldl (fun acc val =>
           let bin := binOf low size val in
           <[bin := default 0 (acc !! bin) + 1]> acc)
        ∅ simulationData.

(** [Math.max(...Object.values(acc), 0)] *)
Definition maxFrequency (simulationData : list number) (observedStat : number) : nat :=
  let acc := countBins (minResult simulationData observedStat)
                       (binSize simulationData observedStat) simulationData in
  max_list ((map_to_list acc).*2 ++ [0]).

Record HistogramTrace := {
  histogram_x : list number;
  histogram_color : string;
  histogram_line_color : string;
  xbins_start : number;
  xbins_end : number;
  xbins_size : number;
  histogram_name : string;
}.

Record LineTrace := {
  line_x : list number;
  line_y : list nat;
  line_color : string;
  line_name : string;
}.

Definition calculatePlotData (simulationData : list number) (observedStat : number)
    (theme : string) : HistogramTrace * LineTrace :=
  let light := String.eqb theme "light" in
  ({| histogram_x := simulationData;
      histogram_color :=
        if light then "rgba(66, 135, 245, 0.6)" else "rgba(102, 187, 255, 0.6)";
      histogram_line_color :=
        if light then "rgba(66, 135, 245, 1)" else "rgba(102, 187, 255, 1)";
      xbins_start := minResult simulationData observedStat;
      xbins_end := maxResult simulationData observedStat;
      xbins_size := binSize simulationData observedStat;
      histogram_name := "Simulated Differences" |},
   {| line_x := [observedStat; observedStat];
      line_y := [0; maxFrequency simulationData observedStat + 1];
      line_color := if light then "rgba(255, 0, 0, 0.7)" else "rgba(255, 102, 102, 0.7)";
      line_name := "Observed Difference" |}).

(** How many of the simulated values fall into the bin of [val]. *)
Definition occupancy (simulationData : list number) (observedStat : number) (val : number)
  : nat :=
  let low := minResult simulationData observedStat in
  let size := binSize simulationData observedStat in
  length (filter (fun other => binOf low size other = binOf low size val) simulationData).

End PlotDisplay.

(** *** The observed statistic in the plot *)

(** [ToBoolean] of a number, as [a || b] takes it: false for 0, -0 and NaN. *)
Class JsTruthy (N : JsNumber) := {
  truthy : number -> bool;
}.

Section ObservedStatistic.
Context {N : JsNumber} {M : JsMath N} {T : JsTruthy N}.

(** [observedStatistic || 0] *)
Definition observedOrZero (observedStatistic : option number) : number :=
  match observedStatistic with
  | Some v => if truthy v then v else of_nat 0
  | None => of_nat 0
  end.

(** [calculatePlotData(simulationData, observedStatistic || 0, theme)] *)
Definition plotData (simulationData : list number) (observedStatistic : option number)
    (theme : string) : HistogramTrace * LineTrace :=
  calculatePlotData simulationData (observedOrZero observedStatistic) theme.

(** Modelled from the spec: the rows a statistic is computed from are the
    eligible ones, which excludes the trailing placeholder and every row with
    zero populated slots (the Test Statistic Registry is missing from the
    sources). *)
Definition eligible (rs : list DataRow) : list DataRow :=
  filter (fun row => every_null (data row) = false) rs.

(** Modelled from the spec: the difference of group means, treatment minus
    control, each group holding the measured values (the slot a row is
    assigned to) of the eligible rows of that group; a group with zero
    populated observations does not raise but gives the sentinel, [null]
    (the Test Statistic Registry is missing from the sources). *)
Definition differenceOfMeans (control treatment : nat) (rs : list DataRow)
  : option number :=
  match average (contributions treatment (eligible rs)),
        average (contributions control (eligible rs)) with
  | Some treated, Some untreated => Some (subtract treated untreated)
  | _, _ => None
  end.

End ObservedStatistic.

(** The plot's operations over the rationals of [Rational]. *)
Module RationalPlot.

#[local] Existing Instance Rational.numbers.

Definition least (a b : option Q) : option Q :=
  match a, b with
  | Some x, Some y => if Qle_bool x y then Some x else Some y
  | _, _ => None
  end.

Definition greatest (a b : option Q) : option Q :=
  match a, b with
  | Some x, Some y => if Qle_bool x y then Some y else Some x
  | _, _ => None
  end.

Definition math : JsMath Rational.numbers := {|
  subtract := Rational.lift2 Qminus;
  floor := fun a => match a with Some x => Some (inject_Z (Qfloor x)) | None => None end;
  minimum := least;
  maximum := greatest;
  propertyKey := fun a => match a with Some x => pretty (Qfloor x) | None => "NaN" end;
|}.

Definition truth : JsTruthy Rational.numbers := {|
  truthy := fun a => match a with Some x => negb (Qeq_bool x 0) | None => false end;
|}.

End RationalPlot.

(** ** Sample grids over the rationals *)

Module Sample.

#[local] Existing Instance Rational.numbers.

Definition value (z : Z) : slot := Num (Some (inject_Z z)).

Definition row (control treatment : slot) (assigned : Z) : DataRow :=
  {| data := [control; treatment]; assignment := JInt assigned |}.

Definition placeholder : DataRow := row Null Null 0.

Definition grid (control : Z) (rs : list DataRow) : UserDataState :=
  {| rows := rs; controlColumnIndex := control; columnNames := ["Control"; "Treatment"] |}.

Definition idle (rs : list DataRow) : SimulationContext :=
  {| userData := grid 0 rs; simulationResults := None; isSimulating := false |}.

Definition running (rs : list DataRow) : SimulationContext :=
  {| userData := grid 0 rs; simulationResults := None; isSimulating := true |}.

Definition store (rs : list DataRow) : History :=
  {| past := []; present := grid 0 rs; future := [] |}.

Definition one : number := Some 1%Q.

End Sample.

(** * Properties *)

(** ** Strings *)

Lemma slice0_length (n : nat) (s : string) :
  String.length (slice0 n s) = n `min` String.length s.
Proof.
  unfold slice0. revert s.
  induction n as [|n IH]; intros [|c s]; simpl; try reflexivity.
  by rewrite IH.
Qed.

Lemma slice0_short (n : nat) (s : string) :
  String.length s ≤ n → slice0 n s = s.
Proof.
  unfold slice0. revert s.
  induction n as [|n IH]; intros [|c s] Hlen; simpl in *; try reflexivity; try lia.
  f_equal. apply IH. lia.
Qed.

Lemma slice0_prefix (n : nat) (s : string) :
  ∃ rest, s = (slice0 n s ++ rest)%string.
Proof.
  unfold slice0. revert s.
  induction n as [|n IH]; intros [|c s]; simpl.
  - by exists EmptyString.
  - by exists (String c s).
  - by exists EmptyString.
  - destruct (IH s) as [rest Hrest]. exists rest.
    change (String c s = String c (substring 0 n s +:+ rest)). by f_equal.
Qed.

Lemma slice0_idemp (n : nat) (s : string) :
  slice0 n (slice0 n s) = slice0 n s.
Proof.
  apply slice0_short. rewrite slice0_length. lia.
Qed.

Section HistoryProperties.
Context {N : JsNumber}.

(** ** The History Manager *)

Lemma undo_record (next : UserDataState) (h : History) :
  undo (record next h)
  = {| past := past h; present := present h; future := [next] |}.
Proof. reflexivity. Qed.

Lemma redo_undo_record (next : UserDataState) (h : History) :
  redo (undo (record next h)) = record next h.
Proof. reflexivity. Qed.

Lemma recordAll_snoc (h : History) (states : list UserDataState) (next : UserDataState) :
  recordAll h (states ++ [next]) = record next (recordAll h states).
Proof. unfold recordAll. by rewrite foldl_app. Qed.

Lemma recordAll_future (h : History) (states : list UserDataState) :
  states ≠ [] → future (recordAll h states) = [].
Proof.
  destruct states as [|s states _] using rev_ind; [done|].
  by rewrite recordAll_snoc.
Qed.

(** As many undos as there were mutations lead back to the start, the
    undone states waiting on the future stack in order. *)
Lemma undo_all_from (states : list UserDataState) (h : History) (later : list UserDataState) :
  Nat.iter (length states) undo (withFuture (recordAll h states) later)
  = withFuture h (states ++ later).
Proof.
  revert later. induction states as [|s states IH] using rev_ind; intros later.
  - reflexivity.
  - rewrite length_app, Nat.add_comm. simpl length.
    change (Nat.iter (1 + length states) undo ?x) with (Nat.iter (S (length states)) undo x).
    rewrite Nat.iter_succ_r, recordAll_snoc.
    change (undo (withFuture (record s (recordAll h states)) later))
      with (withFuture (recordAll h states) (s :: later)).
    rewrite IH. by rewrite <- app_assoc.
Qed.

Lemma redo_all_from (states : list UserDataState) (h : History) (later : list UserDataState) :
  Nat.iter (length states) redo (withFuture h (states ++ later))
  = withFuture (recordAll h states) later.
Proof.
  revert h. induction states as [|s states IH]; intros h.
  - reflexivity.
  - simpl length. rewrite Nat.iter_succ_r.
    change (redo (withFuture h ((s :: states) ++ later)))
      with (withFuture (record s h) (states ++ later)).
    by rewrite IH.
Qed.

Lemma withFuture_own (h : History) : withFuture h (future h) = h.
Proof. by destruct h. Qed.

Lemma undo_all (states : list UserDataState) (h : History) :
  Nat.iter (length states) undo (recordAll h states)
  = withFuture h (states ++ future (recordAll h states)).
Proof. by rewrite <- undo_all_from, withFuture_own. Qed.

(** C1. Undo after a mutation restores the exact prior DataSet, redo after
    that undo restores the mutated one, and a new mutation after an undo
    empties the future stack; over a whole sequence of mutations, as many
    undos lead back to the DataSet the sequence started from and as many
    redos to the DataSet it ended with. *)
Theorem undo_redo_round_trip
    (h : History) (states : list UserDataState) (next other : UserDataState) :
  let mutated := record next (recordAll h states) in
  present (undo mutated) = present (recordAll h states)
  ∧ redo (undo mutated) = mutated
  ∧ future (record other (undo mutated)) = []
  ∧ present (Nat.iter (length states) undo (recordAll h states)) = present h
  ∧ Nat.iter (length states) redo (Nat.iter (length states) undo (recordAll h states))
    = recordAll h states.
Proof.
  intros mutated. repeat split.
  - by rewrite undo_all.
  - rewrite undo_all.
    destruct states as [|s states].
    + simpl. apply withFuture_own.
    + rewrite recordAll_future by done.
      rewrite redo_all_from.
      rewrite <- (recordAll_future h (s :: states)) by done.
      apply withFuture_own.
Qed.

End HistoryProperties.

Section HandlerProperties.
Context {N : JsNumber}.

(** ** The run lock *)

(** C2, as the handlers implement it. While [isSimulating] holds,
    [applyTreatmentEffect], [handleFileUpload] and
    [handleColumnNameChange] return without calling any action and without
    raising an error, so the store is left as it was; once the run has
    ended the same calls reach their mutator. *)
Theorem handlers_return_silently_while_simulating
    (ctx : SimulationContext) (h : History)
    (effect : number) (file : option string) (index : nat) (value : string) :
  isSimulating ctx = true →
  (applyTreatmentEffect ctx effect = Returned []
   ∧ handleFileUpload ctx file = Returned []
   ∧ handleColumnNameChange ctx index value = Returned [])
  ∧ (after h (applyTreatmentEffect ctx effect) = h
     ∧ after h (handleFileUpload ctx file) = h
     ∧ after h (handleColumnNameChange ctx index value) = h)
  ∧ (∃ newData,
       applyTreatmentEffect (released ctx) effect = Returned [SetUserData newData]
       ∧ present (after h (applyTreatmentEffect (released ctx) effect)) = newData)
  ∧ handleColumnNameChange (released ctx) index value
    = Returned [RenameColumn index (slice0 20 value)]
  ∧ (∀ text, parseRows text ≠ [] →
       ∃ newState,
         handleFileUpload (released ctx) (Some text) = Returned [SetUserData newState]
         ∧ present (after h (handleFileUpload (released ctx) (Some text))) = newState).
Proof.
  intros Hrun.
  unfold applyTreatmentEffect, handleFileUpload, handleColumnNameChange.
  rewrite Hrun. simpl.
  repeat split; eauto.
  intros text Hrows.
  destruct (parseRows text) as [|first rest] eqn:Hparsed; [done|].
  eexists. split; reflexivity.
Qed.

(** ** Renaming a column *)

(** C9. Outside a run, [handleColumnNameChange] hands [renameColumn] the
    first 20 characters of the input: a longer input is cut, not refused,
    a shorter one passes unchanged, and that name is what the column then
    holds. *)
Theorem column_name_truncated_to_20
    (ctx : SimulationContext) (h : History) (index : nat) (value : string) :
  isSimulating ctx = false →
  ∃ name,
    handleColumnNameChange ctx index value = Returned [RenameColumn index name]
    ∧ String.length name = 20 `min` String.length value
    ∧ (∃ rest, value = (name +:+ rest))
    ∧ (String.length value ≤ 20 → name = value)
    ∧ (index < length (columnNames (present h)) →
       columnNames (present (after h (handleColumnNameChange ctx index value))) !! index
       = Some name).
Proof.
  intros Hidle. exists (slice0 20 value).
  unfold handleColumnNameChange. rewrite Hidle.
  split; [reflexivity|].
  split; [apply slice0_length|].
  split; [apply slice0_prefix|].
  split; [apply slice0_short|].
  intros Hindex. simpl. unfold renameColumn.
  destruct (index <? length (columnNames (present h))) eqn:Hlt.
  - simpl. rewrite slice0_idemp. by apply list_lookup_insert_eq.
  - apply Nat.ltb_ge in Hlt. lia.
Qed.

End HandlerProperties.

Lemma handlers_return_silently_while_simulating_witness :
  isSimulating (Sample.running [Sample.row (Sample.value 5) Null 0; Sample.placeholder]) = true
  ∧ applyTreatmentEffect
      (Sample.running [Sample.row (Sample.value 5) Null 0; Sample.placeholder]) Sample.one
    = Returned [].
Proof.
  split; [reflexivity|].
  apply (handlers_return_silently_while_simulating
           (Sample.running [Sample.row (Sample.value 5) Null 0; Sample.placeholder])
           (Sample.store [Sample.row (Sample.value 5) Null 0; Sample.placeholder])
           Sample.one None 0 "Control").
  reflexivity.
Defined.

(** C2 as stated fails: a call made during a run is not rejected with
    [LockedError]; it returns normally, having done nothing. *)
Lemma locked_call_raises_no_LockedError :
  let ctx := Sample.running [Sample.row (Sample.value 5) Null 0; Sample.placeholder] in
  isSimulating ctx = true
  ∧ applyTreatmentEffect ctx Sample.one = Returned []
  ∧ applyTreatmentEffect ctx Sample.one ≠ Threw "LockedError".
Proof. repeat split. discriminate. Qed.

Lemma column_name_truncated_to_20_witness :
  isSimulating (Sample.idle [Sample.placeholder]) = false
  ∧ ∃ name,
      handleColumnNameChange (Sample.idle [Sample.placeholder]) 1
        "Treatment group (new drug)"
      = Returned [RenameColumn 1 name]
      ∧ String.length name = 20.
Proof.
  split; [reflexivity|].
  destruct (column_name_truncated_to_20
              (Sample.idle [Sample.placeholder]) (Sample.store [Sample.placeholder]) 1
              "Treatment group (new drug)" eq_refl)
    as (name & Hcall & Hlen & _).
  exists name. split; [exact Hcall | exact Hlen].
Defined.

Section ImputationProperties.
Context {N : JsNumber}.

(** ** applyTreatmentEffect *)

Lemma imputeRows_length (effect : number) (rs : list DataRow) :
  length (imputeRows effect rs) = length rs.
Proof. apply length_imap. Qed.

Lemma imputeRows_lookup (effect : number) (rs : list DataRow) (i : nat) (row : DataRow) :
  rs !! i = Some row →
  imputeRows effect rs !! i
  = Some (if i =? length rs - 1 then row else imputeRow effect row).
Proof. intros Hrow. unfold imputeRows. by rewrite list_lookup_imap, Hrow. Qed.

Lemma imputeRows_last (effect : number) (rs : list DataRow) :
  last (imputeRows effect rs) = last rs.
Proof.
  rewrite !last_lookup, imputeRows_length.
  destruct (rs !! pred (length rs)) as [row|] eqn:Hrow.
  - rewrite (imputeRows_lookup _ _ _ _ Hrow).
    replace (pred (length rs) =? length rs - 1) with true; [done|].
    symmetry. apply Nat.eqb_eq. lia.
  - apply lookup_ge_None. rewrite imputeRows_length. by apply lookup_ge_None.
Qed.

Lemma applyTreatmentEffect_idle (ctx : SimulationContext) (effect : number) :
  isSimulating ctx = false →
  applyTreatmentEffect ctx effect
  = Returned [SetUserData {|
      rows := imputeRows effect (rows (userData ctx));
      controlColumnIndex := controlColumnIndex (userData ctx);
      columnNames := columnNames (userData ctx) |}].
Proof. intros Hidle. unfold applyTreatmentEffect. by rewrite Hidle. Qed.

(** C4, as the handler implements it. Outside a run the last row and every
    row with neither slot populated are left unchanged. In any other
    observation the populated reference slot (the one the row is assigned
    to) is kept and the other slot is written from it, also when that slot
    already held a value; when only the other slot is populated, it is kept
    and the reference slot is filled. *)
Theorem treatment_effect_rewrites_from_reference
    (ctx : SimulationContext) (effect : number) :
  isSimulating ctx = false →
  ∃ newData,
    applyTreatmentEffect ctx effect = Returned [SetUserData newData]
    ∧ length (rows newData) = length (rows (userData ctx))
    ∧ last (rows newData) = last (rows (userData ctx))
    ∧ ∀ i row,
        rows (userData ctx) !! i = Some row →
        i ≠ length (rows (userData ctx)) - 1 →
        observation row →
        ∃ row',
          rows newData !! i = Some row'
          ∧ assignment row' = assignment row
          ∧ length (data row') = 2
          ∧ let reference := assignment row in
            let other := one_minus reference in
            match read (data row) reference, read (data row) other with
            | Null, Null => row' = row
            | Null, value =>
                read (data row') other = value
                ∧ is_null (read (data row') reference) = false
            | value, _ =>
                read (data row') reference = value
                ∧ read (data row') other
                  = Num (slot_plus value (if is_zero reference then effect else neg effect))
            end.
Proof.
  intros Hidle. eexists. split; [by apply applyTreatmentEffect_idle|]. simpl.
  split; [apply imputeRows_length|].
  split; [apply imputeRows_last|].
  intros i row Hrow Hi (a & b & Hdata & Ha & Hb & Hassigned).
  exists (imputeRow effect row).
  split.
  { rewrite (imputeRows_lookup _ _ _ _ Hrow).
    by destruct (Nat.eqb_spec i (length (rows (userData ctx)) - 1)). }
  split; [reflexivity|].
  destruct row as [d r]. simpl in *. subst d.
  destruct Hassigned as [-> | ->];
    destruct a; try discriminate Ha;
    destruct b; try discriminate Hb;
    by vm_compute.
Qed.

(** C5, as the handler implements it. Where exactly one slot of an
    observation is populated, the missing slot is filled with the
    populated value plus or minus [effect]: plus when slot 0 holds the
    value (slot 1 becomes [value + effect]), minus when slot 1 holds it
    (slot 0 becomes [value + -effect]). The sign follows from the row
    alone; [controlColumnIndex] is carried over and never consulted. *)
Theorem imputed_value_is_populated_value_plus_or_minus_effect
    (ctx : SimulationContext) (effect : number)
    (i : nat) (control treatment : slot) (assigned : jsint) :
  isSimulating ctx = false →
  rows (userData ctx) !! i = Some {| data := [control; treatment]; assignment := assigned |} →
  i ≠ length (rows (userData ctx)) - 1 →
  assigned = JInt 0 ∨ assigned = JInt 1 →
  (∃ value, control = Num value ∧ treatment = Null)
  ∨ (∃ value, control = Null ∧ treatment = Num value) →
  ∃ newData,
    applyTreatmentEffect ctx effect = Returned [SetUserData newData]
    ∧ controlColumnIndex newData = controlColumnIndex (userData ctx)
    ∧ rows newData !! i
      = Some {| data := match control, treatment with
                        | Num value, _ => [Num value; Num (add value effect)]
                        | _, Num value => [Num (add value (neg effect)); Num value]
                        | _, _ => [control; treatment]
                        end;
                assignment := assigned |}.
Proof.
  intros Hidle Hrow Hi Hassigned Hone.
  eexists. split; [by apply applyTreatmentEffect_idle|]. simpl.
  split; [reflexivity|].
  rewrite (imputeRows_lookup _ _ _ _ Hrow).
  destruct (Nat.eqb_spec i (length (rows (userData ctx)) - 1)); [done|].
  f_equal.
  destruct Hassigned as [-> | ->];
    destruct Hone as [(value & -> & ->) | (value & -> & ->)];
    reflexivity.
Qed.

End ImputationProperties.

Lemma treatment_effect_rewrites_from_reference_witness :
  isSimulating
    (Sample.idle [Sample.row (Sample.value 5) Null 0; Sample.row Null Null 1; Sample.placeholder])
  = false
  ∧ ∃ newData,
      applyTreatmentEffect
        (Sample.idle [Sample.row (Sample.value 5) Null 0; Sample.row Null Null 1;
                      Sample.placeholder])
        Sample.one
      = Returned [SetUserData newData]
      ∧ length (rows newData) = 3.
Proof.
  split; [reflexivity|].
  destruct (treatment_effect_rewrites_from_reference
              (Sample.idle [Sample.row (Sample.value 5) Null 0; Sample.row Null Null 1;
                            Sample.placeholder])
              Sample.one eq_refl)
    as (newData & Hcall & Hlength & _).
  exists newData. split; [exact Hcall | exact Hlength].
Defined.

(** C4 as stated fails: a paired row, both slots populated, is not left
    untouched; its treatment slot 8 is replaced by 5 + 1. *)
Lemma treatment_effect_overwrites_paired_row :
  let paired := Sample.row (Sample.value 5) (Sample.value 8) 0 in
  applyTreatmentEffect (Sample.idle [paired; Sample.placeholder]) Sample.one
  = Returned [SetUserData (Sample.grid 0
      [Sample.row (Sample.value 5) (Sample.value 6) 0; Sample.placeholder])]
  ∧ Sample.row (Sample.value 5) (Sample.value 6) 0 ≠ paired.
Proof. split; [reflexivity | discriminate]. Qed.

Lemma imputed_value_is_populated_value_plus_or_minus_effect_witness :
  ∃ newData,
    applyTreatmentEffect
      (Sample.idle [Sample.row Null (Sample.value 8) 1; Sample.placeholder]) Sample.one
    = Returned [SetUserData newData]
    ∧ rows newData !! 0 = Some (Sample.row (Sample.value 7) (Sample.value 8) 1).
Proof.
  destruct (imputed_value_is_populated_value_plus_or_minus_effect
              (Sample.idle [Sample.row Null (Sample.value 8) 1; Sample.placeholder])
              Sample.one 0 Null (Sample.value 8) (JInt 1)
              eq_refl eq_refl
              (fun H : 0 = 1 => O_S 0 H)
              (or_intror eq_refl)
              (or_intror (ex_intro _ (Some (inject_Z 8)) (conj eq_refl eq_refl))))
    as (newData & Hcall & _ & Hrow).
  exists newData. split; [exact Hcall | exact Hrow].
Defined.

(** C5 as stated fails: with slot 1 as the control group and a row measured
    in that group, the treatment slot 0 is filled with 8 - 1, as if slot 0
    were the control, not with 8 + 1. *)
Lemma imputed_sign_ignores_controlColumnIndex :
  let measured := Sample.row Null (Sample.value 8) 1 in
  let ctx := {| userData := Sample.grid 1 [measured; Sample.placeholder];
                simulationResults := None;
                isSimulating := false |} in
  applyTreatmentEffect ctx Sample.one
  = Returned [SetUserData (Sample.grid 1
      [Sample.row (Sample.value 7) (Sample.value 8) 1; Sample.placeholder])]
  ∧ Sample.value 7 ≠ Sample.value (8 + 1).
Proof. split; [reflexivity | discriminate]. Qed.

Section PlaceholderProperties.
Context {N : JsNumber}.

(** ** Fully-absent rows *)

Lemma every_null_replicate (n : nat) : every_null (replicate n Null) = true.
Proof. induction n; [done|]. simpl. exact IHn. Qed.

Lemma some_null_replicate (n : nat) : n ≠ 0 → some_null (replicate n Null) = true.
Proof. by destruct n. Qed.

Lemma needsPlaceholder_iff (ctx : SimulationContext) :
  needsPlaceholder ctx = true
  ↔ isSimulating ctx = false
    ∧ (rows (userData ctx) = []
       ∨ ∃ row, last (rows (userData ctx)) = Some row ∧ some_null (data row) = false).
Proof.
  unfold needsPlaceholder, last_row.
  destruct (isSimulating ctx); simpl.
  { split; [done | by intros [? _]]. }
  destruct (last (rows (userData ctx))) as [row|] eqn:Hlast.
  - rewrite negb_true_iff. split.
    + intros Hnone. split; [done|]. right. by exists row.
    + intros [_ [Hempty | (row' & Hrow' & Hnone)]].
      * by rewrite Hempty in Hlast.
      * by simplify_eq.
  - apply last_None in Hlast. naive_solver.
Qed.

(** ** The placeholder effect *)

(** C3, as the effect implements it. Outside a run the effect calls
    [addRow] exactly when there is no row or the last row has no absent
    slot. The row list then ends with the appended fully-absent row;
    otherwise the store is left as it was. Either way the last row ends up
    with at least one absent slot, and running the effect again appends
    nothing. *)
Theorem placeholder_appended_when_last_row_has_no_absent_slot
    (ctx : SimulationContext) (h : History) :
  isSimulating ctx = false →
  present h = userData ctx →
  columnNames (userData ctx) ≠ [] →
  let h' := after h (placeholderEffect ctx) in
  (placeholderEffect ctx = Returned [AddRow]
   ↔ rows (userData ctx) = []
     ∨ ∃ row, last (rows (userData ctx)) = Some row ∧ some_null (data row) = false)
  ∧ (placeholderEffect ctx = Returned [AddRow] →
     rows (present h')
     = rows (userData ctx) ++ [emptyRow (length (columnNames (userData ctx)))])
  ∧ (placeholderEffect ctx ≠ Returned [AddRow] → h' = h)
  ∧ (∃ row, last (rows (present h')) = Some row ∧ some_null (data row) = true)
  ∧ placeholderEffect (contextOf h' false) = Returned [].
Proof.
  intros Hidle Hpresent Hnames h'. subst h'.
  pose proof (needsPlaceholder_iff ctx) as Hneeds.
  unfold placeholderEffect in *.
  destruct (needsPlaceholder ctx) eqn:Hneed; simpl.
  - rewrite Hpresent.
    assert (Hlast : some_null (replicate (length (columnNames (userData ctx))) Null) = true).
    { apply some_null_replicate. by destruct (columnNames (userData ctx)). }
    repeat split; try done.
    + intros _. by apply Hneeds.
    + eexists. split; [apply last_snoc|]. exact Hlast.
    + unfold needsPlaceholder, last_row. simpl.
      rewrite last_snoc. simpl. by rewrite Hlast.
  - assert (Hsettled :
      ∃ row, last (rows (userData ctx)) = Some row ∧ some_null (data row) = true).
    { unfold needsPlaceholder, last_row in Hneed. rewrite Hidle in Hneed. simpl in Hneed.
      destruct (last (rows (userData ctx))) as [row|]; [|done].
      exists row. split; [done|]. by apply negb_false_iff. }
    repeat split; try done.
    + intros Hcond. assert (Hfalse : false = true) by (apply Hneeds; by split). done.
    + by rewrite Hpresent.
    + unfold needsPlaceholder, last_row. simpl. rewrite Hpresent.
      destruct Hsettled as (row & -> & ->). done.
Qed.

(** ** handleFileUpload *)

Lemma handleFileUpload_idle (ctx : SimulationContext) (text : string) :
  isSimulating ctx = false →
  parseRows text ≠ [] →
  handleFileUpload ctx (Some text)
  = Returned [SetUserData {|
      rows := parseRows text
              ++ [emptyRow (max_list (map (fun row => length (data row)) (parseRows text)))];
      controlColumnIndex := 0;
      columnNames := columnNames (userData ctx) |}].
Proof.
  intros Hidle Hrows. unfold handleFileUpload. rewrite Hidle.
  by destruct (parseRows text).
Qed.

(** With no line to parse nothing reaches [setUserData]. *)
Lemma handleFileUpload_empty (ctx : SimulationContext) (text : string) :
  isSimulating ctx = false →
  parseRows text = [] →
  handleFileUpload ctx (Some text) = Threw "RangeError".
Proof. intros Hidle Hrows. unfold handleFileUpload. by rewrite Hidle, Hrows. Qed.

(** C8, as the handler implements it. An accepted import replaces the
    DataSet by the parsed rows followed by one appended row: fully absent,
    assigned to slot 0, as long as the longest parsed row. The parsed rows
    are taken as they are. [controlColumnIndex] is 0, a valid slot index
    as soon as there is a column name, and the names are kept. *)
Theorem import_appends_one_placeholder
    (ctx : SimulationContext) (h : History) (text : string) :
  isSimulating ctx = false →
  parseRows text ≠ [] →
  ∃ newState placeholder,
    handleFileUpload ctx (Some text) = Returned [SetUserData newState]
    ∧ present (after h (handleFileUpload ctx (Some text))) = newState
    ∧ rows newState = parseRows text ++ [placeholder]
    ∧ last (rows newState) = Some placeholder
    ∧ every_null (data placeholder) = true
    ∧ assignment placeholder = JInt 0
    ∧ (∀ row, row ∈ parseRows text → length (data row) ≤ length (data placeholder))
    ∧ (∃ row, row ∈ parseRows text ∧ length (data row) = length (data placeholder))
    ∧ controlColumnIndex newState = 0%Z
    ∧ columnNames newState = columnNames (userData ctx)
    ∧ (columnNames (userData ctx) ≠ [] →
       (0 ≤ controlColumnIndex newState < Z.of_nat (length (columnNames newState)))%Z).
Proof.
  intros Hidle Hrows.
  set (lengths := map (fun row => length (data row)) (parseRows text)).
  eexists. exists (emptyRow (max_list lengths)).
  rewrite (handleFileUpload_idle _ _ Hidle Hrows). simpl.
  rewrite length_replicate.
  repeat split.
  - apply last_snoc.
  - apply every_null_replicate.
  - intros row Hrow. apply max_list_elem_of_le.
    apply list_elem_of_fmap. by exists row.
  - assert (Hmax : max_list lengths ∈ lengths).
    { apply max_list_elem_of. subst lengths. by destruct (parseRows text). }
    apply list_elem_of_fmap in Hmax as (row & Hlen & Hrow). by exists row.
  - done.
  - destruct (columnNames (userData ctx)); [done|]. simpl. lia.
Qed.

End PlaceholderProperties.

Lemma placeholder_appended_when_last_row_has_no_absent_slot_witness :
  placeholderEffect
    (Sample.idle [Sample.row (Sample.value 5) (Sample.value 8) 0])
  = Returned [AddRow]
  ∧ rows (present (after (Sample.store [Sample.row (Sample.value 5) (Sample.value 8) 0])
                         (placeholderEffect
                            (Sample.idle [Sample.row (Sample.value 5) (Sample.value 8) 0]))))
    = [Sample.row (Sample.value 5) (Sample.value 8) 0; Sample.placeholder].
Proof.
  pose proof (placeholder_appended_when_last_row_has_no_absent_slot
                (Sample.idle [Sample.row (Sample.value 5) (Sample.value 8) 0])
                (Sample.store [Sample.row (Sample.value 5) (Sample.value 8) 0])
                eq_refl eq_refl
                (fun H : ["Control"; "Treatment"] = [] => nil_cons (eq_sym H)))
    as (Hwhen & Happended & _).
  assert (Hcall : placeholderEffect
                    (Sample.idle [Sample.row (Sample.value 5) (Sample.value 8) 0])
                  = Returned [AddRow]).
  { apply Hwhen. right. eexists. split; reflexivity. }
  split; [exact Hcall | exact (Happended Hcall)].
Defined.

(** C3 as stated fails: a last row that is no longer all-absent, one slot
    populated, gets no placeholder after it, and the grid then ends with a
    row that is not fully absent. *)
Lemma no_placeholder_after_partly_filled_row :
  let entered := Sample.row (Sample.value 5) Null 0 in
  every_null (data entered) = false
  ∧ placeholderEffect (Sample.idle [entered]) = Returned []
  ∧ rows (present (after (Sample.store [entered]) (placeholderEffect (Sample.idle [entered]))))
    = [entered].
Proof. repeat split. Qed.

Lemma import_appends_one_placeholder_witness :
  ∃ newState placeholder,
    handleFileUpload (Sample.idle [Sample.placeholder]) (Some "5,,0")
    = Returned [SetUserData newState]
    ∧ last (rows newState) = Some placeholder
    ∧ every_null (data placeholder) = true.
Proof.
  destruct (import_appends_one_placeholder
              (Sample.idle [Sample.placeholder]) (Sample.store [Sample.placeholder]) "5,,0"
              eq_refl
              (fun H : parseRows "5,,0" = [] => nil_cons (eq_sym H)))
    as (newState & placeholder & Hcall & _ & _ & Hlast & Habsent & _).
  exists newState, placeholder. split; [exact Hcall|]. split; [exact Hlast | exact Habsent].
Defined.

(** C8 as stated fails: a line without data, [",,0"], is parsed into a
    fully-absent row and kept, so the imported grid ends with two
    fully-absent rows. *)
Lemma import_keeps_fully_absent_rows :
  handleFileUpload (Sample.idle [Sample.placeholder]) (Some ",,0")
  = Returned [SetUserData (Sample.grid 0 [Sample.row Null Null 0; Sample.placeholder])]
  ∧ every_null (data (Sample.row Null Null 0)) = true
  ∧ every_null (data Sample.placeholder) = true.
Proof. repeat split. Qed.

Section AverageProperties.
Context {N : JsNumber}.

(** ** calculateColumnAverages *)

Abbreviation group_of acc c := (default [] (acc !! c)).

Lemma push_lookup (acc : gmap nat (list slot)) (k : nat) (value : slot) (c : nat) :
  group_of (push acc k value) c
  = group_of acc c ++ (if decide (c = k) then [value] else []).
Proof.
  unfold push.
  destruct (acc !! k) as [group|] eqn:Hgroup.
  - rewrite Hgroup. destruct (decide (c = k)) as [->|Hne].
    + by rewrite lookup_insert_eq, Hgroup.
    + rewrite lookup_insert_ne by done. by rewrite app_nil_r.
  - rewrite lookup_insert_eq. destruct (decide (c = k)) as [->|Hne].
    + by rewrite lookup_insert_eq, Hgroup.
    + rewrite !lookup_insert_ne by done. by rewrite app_nil_r.
Qed.

(** One row visited from column [k] on adds to group [c] what slot [c]
    contributes, if that slot is among the visited ones. *)
Lemma collect_lookup (assigned : jsint) (d : list slot) :
  ∀ (k : nat) (acc : gmap nat (list slot)) (c : nat),
    group_of (collect assigned k d acc) c
    = group_of acc c
      ++ (if decide (k ≤ c)
          then contribution c {| data := replicate k Hole ++ d; assignment := assigned |}
          else []).
Proof.
  induction d as [|value d IH]; intros k acc c.
  - simpl. unfold contribution. simpl. rewrite app_nil_r.
    destruct (decide (k ≤ c)); [|by rewrite app_nil_r].
    rewrite lookup_ge_None_2 by (rewrite length_replicate; lia).
    destruct (same_index assigned c); by rewrite app_nil_r.
  - simpl. rewrite IH.
    replace (replicate k Hole ++ value :: d)
      with (replicate k Hole ++ [value] ++ d) by done.
    unfold contribution. simpl.
    destruct (decide (S k ≤ c)) as [Hlt|Hge].
    + (* the slots after [value] decide *)
      destruct (decide (k ≤ c)); [|lia].
      assert (Hother :
        group_of (if negb (is_hole value) && negb (is_null value) && same_index assigned k
                  then push acc k value else acc) c = group_of acc c).
      { destruct (_ && _); [|done]. rewrite push_lookup.
        destruct (decide (c = k)); [lia|]. by rewrite app_nil_r. }
      rewrite Hother. f_equal.
      destruct (same_index assigned c); [|done].
      rewrite !lookup_app_r by (rewrite length_replicate; lia).
      rewrite !length_replicate.
      replace (c - k) with (S (c - S k)) by lia.
      destruct c as [|c]; [lia|]. simpl.
      rewrite lookup_app_r by (rewrite length_replicate; lia).
      by rewrite length_replicate.
    + rewrite app_nil_r.
      destruct (decide (k ≤ c)) as [Hle|Hgt].
      * (* [value] itself is slot [c] *)
        assert (c = k) as -> by lia.
        rewrite lookup_app_r by (rewrite length_replicate; lia).
        rewrite length_replicate, Nat.sub_diag. simpl.
        destruct (same_index assigned k); simpl.
        -- destruct value; simpl; rewrite ?app_nil_r; try done;
             by rewrite push_lookup, decide_True.
        -- rewrite app_nil_r. by rewrite andb_false_r.
      * rewrite app_nil_r.
        destruct (_ && _); [|done]. rewrite push_lookup.
        destruct (decide (c = k)); [lia|]. by rewrite app_nil_r.
Qed.

Lemma collect_row (row : DataRow) (acc : gmap nat (list slot)) (c : nat) :
  group_of (collect (assignment row) 0 (data row) acc) c
  = group_of acc c ++ contribution c row.
Proof.
  rewrite collect_lookup. destruct (decide (0 ≤ c)); [|lia]. by destruct row.
Qed.

(** A row that [every] finds all-null contributes to no column. *)
Lemma contribution_every_null (c : nat) (row : DataRow) :
  every_null (data row) = true → contribution c row = [].
Proof.
  intros Hnull. unfold contribution.
  destruct (same_index (assignment row) c); [|done].
  destruct (data row !! c) as [value|] eqn:Hvalue; [|done].
  unfold every_null in Hnull. rewrite forallb_forall in Hnull.
  rewrite Hnull; [done|]. apply list_elem_of_In. by eapply list_elem_of_lookup_2.
Qed.

Lemma groupRows_lookup (n : nat) (rs : list DataRow) :
  ∀ (index : nat) (acc : gmap nat (list slot)) (c : nat),
    group_of (groupRows n index rs acc) c = group_of acc c ++ contributions c rs.
Proof.
  induction rs as [|row rs IH]; intros index acc c; simpl.
  - by rewrite app_nil_r.
  - rewrite IH, app_assoc. f_equal.
    destruct ((index =? n - 1) && every_null (data row)) eqn:Hskip.
    + apply andb_true_iff in Hskip as [_ Hnull].
      by rewrite contribution_every_null, app_nil_r.
    + apply collect_row.
Qed.

Lemma calculateColumnAverages_contributions (names : list string) (rs : list DataRow) :
  calculateColumnAverages names rs
  = imap (fun c _ => average (contributions c rs)) names.
Proof.
  unfold calculateColumnAverages. apply imap_ext. intros c name _. simpl.
  by rewrite groupRows_lookup, lookup_empty.
Qed.

Lemma contributions_app (c : nat) (before after : list DataRow) :
contributions c (before ++ after) = contributions c before ++ contributions c after.
Proof. apply flat_map_app. Qed.

Lemma average_None (group : list slot) : average group = None ↔ group = [].
Proof. unfold average. destruct group; simpl; split; done. Qed.

Lemma imap_all_None (names : list string) :
imap (fun (_ : nat) (_ : string) => @None number) names = replicate (length names) None.
Proof.
  change (imap (const (fun _ : string => @None number)) names = replicate (length names) None).
  rewrite imap_const. by apply const_fmap.
Qed.

(** C10. Column [c] averages exactly the slot-[c] values of the rows
    assigned to [c]: a row assigned elsewhere, such as a paired row seen from
    its other column, does not bear on the column at all, and a column with
    no contributing value yields [null], a number being reported only where
    some value contributes. *)
Theorem averages_count_assigned_slot_only (names : list string) (rs : list DataRow) :
calculateColumnAverages names rs = imap (fun c _ => average (contributions c rs)) names
∧ (∀ c before row after,
     same_index (assignment row) c = false →
     rs = before ++ row :: after →
     calculateColumnAverages names rs !! c
     = calculateColumnAverages names (before ++ after) !! c)
∧ (∀ c, c < length names → contributions c rs = [] →
     calculateColumnAverages names rs !! c = Some None)
∧ (∀ c v, calculateColumnAverages names rs !! c = Some (Some v) →
     contributions c rs ≠ []).
Proof.
  split; [apply calculateColumnAverages_contributions|].
  split; [|split].
  - intros c before row after Hassigned ->.
    rewrite !calculateColumnAverages_contributions, !list_lookup_imap.
    assert (Hrow : contribution c row = []).
    { unfold contribution. by rewrite Hassigned. }
    rewrite !contributions_app. simpl. by rewrite Hrow.
  - intros c Hc Hnone.
    rewrite calculateColumnAverages_contributions, list_lookup_imap, Hnone.
    destruct (lookup_lt_is_Some_2 names c Hc) as [name ->]. done.
  - intros c v Hv Hnone.
    rewrite calculateColumnAverages_contributions, list_lookup_imap, Hnone in Hv.
    by destruct (names !! c).
Qed.

(** The column averages and a fully-absent last row: the averages of a
    grid that ends with it are those of the rows before it, and over a grid
    holding nothing but that row every column average is [null], shown as
    ["--"], not zero; a [null] observed statistic reads ["N/A"]. *)
Theorem placeholder_row_is_never_averaged
  (ctx : SimulationContext) (names : list string) (rs : list DataRow) (p : DataRow) :
every_null (data p) = true →
calculateColumnAverages names (rs ++ [p])
= imap (fun c _ => average (contributions c rs)) names
∧ calculateColumnAverages names [p] = replicate (length names) None
∧ ColumnAverages (calculateColumnAverages names [p])
  = replicate (length names) (Text "--")
∧ (isSimulating ctx = false → rows (userData ctx) = [p] →
   columnAverages ctx
   = Returned (replicate (length (columnNames (userData ctx))) None))
∧ observedStatisticDisplay None = Text "N/A".
Proof.
  intros Habsent.
  assert (Hlast : ∀ names' rs',
    calculateColumnAverages names' (rs' ++ [p])
    = imap (fun c _ => average (contributions c rs')) names').
  { intros names' rs'. rewrite calculateColumnAverages_contributions.
    apply imap_ext. intros c name _. simpl.
    rewrite contributions_app. simpl.
    by rewrite contribution_every_null, !app_nil_r. }
  assert (Hsole : ∀ names', calculateColumnAverages names' [p]
                            = replicate (length names') None).
  { intros names'. change [p] with ([] ++ [p]). rewrite Hlast. apply imap_all_None. }
  split; [apply Hlast|].
  split; [apply Hsole|].
  split.
  { rewrite Hsole. unfold ColumnAverages. by rewrite fmap_replicate. }
  split; [|reflexivity].
  intros Hidle Hrows. unfold columnAverages, dataToDisplay.
  rewrite Hidle, Hrows. by rewrite Hsole.
Qed.

End AverageProperties.

Lemma placeholder_row_is_never_averaged_witness :
calculateColumnAverages ["Control"; "Treatment"] [Sample.placeholder] = [None; None]
∧ calculateColumnAverages ["Control"; "Treatment"]
    ([Sample.row (Sample.value 5) Null 0; Sample.row Null (Sample.value 8) 1]
     ++ [Sample.placeholder])
  = [Some (Some (inject_Z 5)); Some (Some (inject_Z 8))].
Proof.
  pose proof (placeholder_row_is_never_averaged
                (Sample.idle [Sample.placeholder]) ["Control"; "Treatment"]
                [Sample.row (Sample.value 5) Null 0; Sample.row Null (Sample.value 8) 1]
                Sample.placeholder eq_refl)
    as (Hbefore & Hsole & _).
  split; [exact Hsole|].
  rewrite Hbefore. reflexivity.
Defined.

(** A paired row counts once, in the column it is assigned to. *)
Example paired_row_averages :
calculateColumnAverages ["Control"; "Treatment"]
  [Sample.row (Sample.value 5) (Sample.value 8) 0;
   Sample.row (Sample.value 7) Null 0;
   Sample.row Null (Sample.value 8) 1;
   Sample.placeholder]
= [Some (Some (inject_Z 6)); Some (Some (inject_Z 8))].
Proof. reflexivity. Qed.

(** ** The p-value *)

Lemma pValue_bounds (observedStatistic : Q) (trials : list (option Q)) :
trials ≠ [] →
∃ p, pValue observedStatistic trials = Some p ∧ (0 <= p)%Q ∧ (p <= 1)%Q.
Proof.
  intros Htrials.
  exists (Qmake (Z.of_nat (length (filter (fun t => extreme observedStatistic t = true) trials)))
                (Pos.of_nat (length trials))).
  split; [by destruct trials|].
  pose proof (length_filter (fun t => extreme observedStatistic t = true) trials) as Hcount.
  assert (Hpos : Z.pos (Pos.of_nat (length trials)) = Z.of_nat (length trials)).
  { rewrite <- positive_nat_Z. f_equal. apply Nat2Pos.id. by destruct trials. }
  unfold Qle. cbn [Qnum Qden]. rewrite Hpos. lia.
Qed.

(** C6. With no trial the p-value is undefined, and an undefined or NaN
    p-value reads ["N/A"], never a number; with at least one valid trial it
    is a fraction between 0 and 1. *)
Theorem pValue_not_available_or_within_bounds
  {N : JsNumber} (observedStatistic : Q) (trials : list (option Q)) (toNumber : Q → number) :
(∃ statistic, Some statistic ∈ trials) →
(pValue observedStatistic [] = None
 ∧ pValueDisplay (toNumber <$> pValue observedStatistic []) = Text "N/A"
 ∧ (∀ v, isNaN v = true → pValueDisplay (Some v) = Text "N/A")
 ∧ (∀ p, pValueDisplay p = Text "N/A" → p = None ∨ ∃ v, p = Some v ∧ isNaN v = true))
∧ ∃ p, pValue observedStatistic trials = Some p ∧ (0 <= p)%Q ∧ (p <= 1)%Q.
Proof.
  intros (statistic & Hvalid). split.
  - split; [reflexivity|]. split; [reflexivity|]. split.
    + intros v Hnan. unfold pValueDisplay. by rewrite Hnan.
    + intros [v|] Hshown; [|by left]. right. exists v. split; [done|].
      unfold pValueDisplay in Hshown. by destruct (isNaN v).
  - apply pValue_bounds. intros ->. by apply elem_of_nil in Hvalid.
Qed.

Lemma pValue_not_available_or_within_bounds_witness :
∃ p, pValue 3 [Some 3%Q; Some (-3)%Q; Some 1%Q; None] = Some p ∧ (0 <= p)%Q ∧ (p <= 1)%Q.
Proof.
  apply (pValue_not_available_or_within_bounds (N := Rational.numbers)
           3 [Some 3%Q; Some (-3)%Q; Some 1%Q; None] Some).
  exists 3%Q. apply list_elem_of_here.
Defined.

(** * Further properties *)

(** ** Strings *)

Lemma append_cons (c : ascii) (s1 s2 : string) :
  (String c s1 +:+ s2) = String c (s1 +:+ s2).
Proof. reflexivity. Qed.

Lemma append_empty_r (s : string) : (s +:+ EmptyString) = s.
Proof. induction s as [|c s IH]; [done|]. by rewrite append_cons, IH. Qed.

Lemma append_assoc (s1 s2 s3 : string) : ((s1 +:+ s2) +:+ s3) = (s1 +:+ (s2 +:+ s3)).
Proof. induction s1 as [|c s1 IH]; [done|]. by rewrite !append_cons, IH. Qed.

Lemma rev_app_append (s1 s2 : string) :
  String.rev_app s1 s2 = (String.rev s1 +:+ s2).
Proof.
  unfold String.rev. revert s2.
  induction s1 as [|c s1 IH]; intros s2; [done|].
  cbn [String.rev_app]. rewrite IH, (IH (String c EmptyString)).
  by rewrite append_assoc.
Qed.

Lemma rev_cons (c : ascii) (s : string) :
  String.rev (String c s) = (String.rev s +:+ String c EmptyString).
Proof. unfold String.rev at 1. cbn [String.rev_app]. apply rev_app_append. Qed.

Lemma rev_append (s1 s2 : string) :
  String.rev (s1 +:+ s2) = (String.rev s2 +:+ String.rev s1).
Proof.
  induction s1 as [|c s1 IH].
  - change (EmptyString +:+ s2) with s2. change (String.rev EmptyString) with EmptyString.
    by rewrite append_empty_r.
  - by rewrite append_cons, !rev_cons, IH, append_assoc.
Qed.

Lemma rev_involutive (s : string) : String.rev (String.rev s) = s.
Proof.
  induction s as [|c s IH]; [done|].
  by rewrite rev_cons, rev_append, IH.
Qed.

Lemma all_white_append (s1 s2 : string) :
  all_white (s1 +:+ s2) = all_white s1 && all_white s2.
Proof.
  induction s1 as [|c s1 IH]; [done|].
  rewrite append_cons. cbn [all_white]. by rewrite IH, andb_assoc.
Qed.

Lemma all_white_rev (s : string) : all_white (String.rev s) = all_white s.
Proof.
  induction s as [|c s IH]; [done|].
  rewrite rev_cons, all_white_append, IH. cbn [all_white].
  by rewrite andb_true_r, andb_comm.
Qed.

Lemma trim_start_all_white (s : string) :
  all_white s = true → trim_start s = EmptyString.
Proof.
  induction s as [|c s IH]; [done|].
  cbn [all_white trim_start]. intros [Hc Hs]%andb_true_iff. rewrite Hc. by apply IH.
Qed.

Lemma trim_start_skips (w s : string) :
  all_white w = true → trim_start (w +:+ s) = trim_start s.
Proof.
  induction w as [|c w IH]; [done|].
  rewrite append_cons. cbn [all_white trim_start].
  intros [Hc Hw]%andb_true_iff. rewrite Hc. by apply IH.
Qed.

Lemma trim_start_keeps (s w : string) :
  all_white s = false → trim_start (s +:+ w) = (trim_start s +:+ w).
Proof.
  induction s as [|c s IH]; [done|].
  rewrite append_cons. cbn [all_white trim_start].
  destruct (is_white c); [|done]. apply IH.
Qed.

Lemma trim_all_white (s : string) : all_white s = true → trim s = EmptyString.
Proof. intros Hs. unfold trim. rewrite (trim_start_all_white s) by done. reflexivity. Qed.

(** White space around a string is trimmed away with it. *)
Lemma trim_around (w1 s w2 : string) :
  all_white w1 = true → all_white w2 = true →
  trim (w1 +:+ s +:+ w2) = trim s.
Proof.
  intros Hw1 Hw2. unfold trim. rewrite (trim_start_skips w1) by done.
  destruct (all_white s) eqn:Hs.
  - rewrite (trim_start_all_white s) by done.
    rewrite (trim_start_all_white (s +:+ w2)); [reflexivity|].
    by rewrite all_white_append, Hs, Hw2.
  - rewrite trim_start_keeps by done.
    rewrite rev_append, trim_start_skips; [done|].
    by rewrite all_white_rev.
Qed.

Lemma trim_start_empty (s : string) : trim_start s = EmptyString → all_white s = true.
Proof.
  induction s as [|c s IH]; [done|].
  cbn [all_white trim_start]. destruct (is_white c); [exact IH | discriminate].
Qed.

Lemma trim_start_not_white (s : string) :
  match trim_start s with
  | EmptyString => True
  | String c _ => is_white c = false
  end.
Proof.
  induction s as [|c s IH]; [done|].
  cbn [trim_start]. by destruct (is_white c) eqn:Hc.
Qed.

Lemma trim_empty_iff_all_white (s : string) : trim s = EmptyString ↔ all_white s = true.
Proof.
  split; [|apply trim_all_white].
  unfold trim. intros Hempty.
  apply trim_start_empty.
  assert (Hrev : String.rev (trim_start s) = EmptyString ∨
                 ∃ c t, String.rev (trim_start s) = (t +:+ String c EmptyString)
                        ∧ is_white c = false).
  { pose proof (trim_start_not_white s) as Hfirst.
    destruct (trim_start s) as [|c t]; [by left|].
    right. exists c, (String.rev t). by rewrite rev_cons. }
  destruct Hrev as [Hrev | (c & t & Hrev & Hc)].
  - by rewrite <- (rev_involutive (trim_start s)), Hrev.
  - exfalso. rewrite Hrev in Hempty.
    assert (Hwhite : all_white (t +:+ String c EmptyString) = true).
    { apply trim_start_empty. by rewrite <- (rev_involutive (trim_start _)), Hempty. }
    rewrite all_white_append in Hwhite. cbn [all_white] in Hwhite.
    rewrite Hc in Hwhite. by destruct (all_white t).
Qed.

(** ** split *)

Lemma split_from_length (sep : ascii) (s : string) :
  ∀ piece, length (split_from sep piece s) = S (count_char sep s).
Proof.
  induction s as [|c s IH]; intros piece; [done|].
  cbn [split_from count_char]. destruct (Ascii.eqb c sep).
  - cbn [length]. by rewrite IH.
  - by rewrite IH.
Qed.

Lemma split_from_not_nil (sep : ascii) (piece s : string) : split_from sep piece s ≠ [].
Proof.
  intros Hnil. pose proof (split_from_length sep s piece) as Hlen.
  by rewrite Hnil in Hlen.
Qed.

(** What has been read of the current piece only extends the first piece. *)
Lemma split_from_piece (sep : ascii) (s : string) :
  ∀ piece,
    split_from sep piece s
    = match split_from sep EmptyString s with
      | first :: rest => (String.rev piece +:+ first) :: rest
      | [] => []
      end.
Proof.
  induction s as [|c s IH]; intros piece.
  - cbn [split_from]. change (String.rev EmptyString) with EmptyString.
    by rewrite append_empty_r.
  - cbn [split_from]. destruct (Ascii.eqb c sep).
    + change (String.rev EmptyString) with EmptyString. by rewrite append_empty_r.
    + rewrite (IH (String c piece)), (IH (String c EmptyString)).
      destruct (split_from sep EmptyString s) as [|first rest]; [done|].
      rewrite rev_cons, append_assoc. f_equal.
Qed.

(** Pieces on either side of a separator are split independently. *)
Lemma split_from_separator (sep : ascii) (s1 s2 : string) :
  ∀ piece,
    split_from sep piece (s1 +:+ String sep s2)
    = split_from sep piece s1 ++ split_from sep EmptyString s2.
Proof.
  induction s1 as [|c s1 IH]; intros piece.
  - change (EmptyString +:+ String sep s2) with (String sep s2).
    cbn [split_from]. by rewrite Ascii.eqb_refl.
  - rewrite append_cons. cbn [split_from]. destruct (Ascii.eqb c sep).
    + by rewrite IH.
    + apply IH.
Qed.

Lemma split_from_no_separator (sep : ascii) (w : string) :
  count_char sep w = 0 →
  ∀ piece, split_from sep piece w = [String.rev piece +:+ w].
Proof.
  induction w as [|c w IH]; intros Hnone piece.
  - cbn [split_from]. by rewrite append_empty_r.
  - cbn [split_from count_char] in *. destruct (Ascii.eqb c sep); [done|].
    rewrite IH by done. by rewrite rev_cons, append_assoc.
Qed.

(** Text without a separator in front of a string joins its first piece,
    behind it its last piece. *)
Lemma split_leading (sep : ascii) (w s : string) :
  count_char sep w = 0 →
  split sep (w +:+ s)
  = match split sep s with
    | first :: rest => (w +:+ first) :: rest
    | [] => []
    end.
Proof.
  unfold split. induction w as [|c w IH]; intros Hnone.
  - change (EmptyString +:+ s) with s. by destruct (split_from sep EmptyString s).
  - rewrite append_cons. cbn [split_from count_char] in *.
    destruct (Ascii.eqb c sep); [done|].
    rewrite split_from_piece, IH by done.
    by destruct (split_from sep EmptyString s).
Qed.

Lemma split_trailing (sep : ascii) (s w : string) :
  count_char sep w = 0 →
  ∀ piece,
    split_from sep piece (s +:+ w)
    = removelast (split_from sep piece s)
      ++ [List.last (split_from sep piece s) EmptyString +:+ w].
Proof.
  intros Hnone. induction s as [|c s IH]; intros piece.
  - change (EmptyString +:+ w) with w. by rewrite split_from_no_separator.
  - rewrite append_cons. cbn [split_from]. destruct (Ascii.eqb c sep); [|apply IH].
    rewrite IH.
    pose proof (split_from_not_nil sep EmptyString s) as Hsome.
    by destruct (split_from sep EmptyString s).
Qed.

Lemma white_is_no_comma (w : string) : all_white w = true → count_char comma w = 0.
Proof.
  induction w as [|c w IH]; [done|].
  cbn [all_white count_char]. intros [Hc Hw]%andb_true_iff.
  rewrite IH by done.
  destruct (Ascii.eqb_spec c comma) as [->|]; [by vm_compute in Hc | done].
Qed.

Lemma removelast_length {A : Type} (l : list A) : length (removelast l) = pred (length l).
Proof.
  induction l as [|x l IH]; [done|].
  destruct l as [|y l]; [done|]. cbn [removelast length] in *. by rewrite IH.
Qed.

Lemma lines_all_white (s : string) :
  ∀ piece,
    forallb all_white (split_from newline piece s) = all_white piece && all_white s.
Proof.
  induction s as [|c s IH]; intros piece.
  - cbn [split_from forallb all_white]. by rewrite all_white_rev.
  - cbn [split_from all_white]. destruct (Ascii.eqb_spec c newline) as [->|Hc].
    + cbn [forallb]. rewrite IH, all_white_rev. by vm_compute is_white.
    + rewrite IH. cbn [all_white].
      destruct (is_white c), (all_white piece), (all_white s); done.
Qed.

Section ImportProperties.
Context {N : JsNumber}.

(** ** Parsing the file *)

Lemma spread_plain (d : list slot) :
  Forall (fun cell => plain cell = true) d → spread d = d.
Proof.
  induction 1 as [|cell d Hcell _ IH]; [done|].
  unfold spread in *. cbn [map]. rewrite IH. by destruct cell.
Qed.

(** X1. A line is parsed into one cell per comma, each cell [null] or a
    number: the parsed data has no hole and no [undefined], and copying it
    changes nothing. *)
Theorem parsed_row_has_one_cell_per_comma (line : string) :
  length (data (parseLine line)) = count_char comma line
  ∧ Forall (fun cell => plain cell = true) (data (parseLine line))
  ∧ spread (data (parseLine line)) = data (parseLine line).
Proof.
  assert (Hplain : Forall (fun cell => plain cell = true) (data (parseLine line))).
  { unfold parseLine. cbn [data]. apply Forall_forall. intros cell Hcell.
    apply list_elem_of_fmap in Hcell as (value & -> & _).
    by destruct (String.eqb value EmptyString). }
  split; [|split; [exact Hplain | by apply spread_plain]].
  unfold parseLine. cbn [data].
  rewrite length_map, removelast_length, length_map.
  unfold split. by rewrite split_from_length.
Qed.

Lemma parseRows_empty_text : parseRows EmptyString = [].
Proof. reflexivity. Qed.

(** X2. Lines are parsed independently of each other: the rows of a text
    are those of the part before a line break followed by those of the part
    after it; an empty line between them or a line break at the end adds no
    row. *)
Theorem lines_are_parsed_independently (before after : string) :
  parseRows (before +:+ String newline after) = parseRows before ++ parseRows after
  ∧ parseRows (before +:+ String newline (String newline after))
    = parseRows before ++ parseRows after
  ∧ parseRows (before +:+ String newline EmptyString) = parseRows before.
Proof.
  assert (Hbreak : ∀ t1 t2,
    parseRows (t1 +:+ String newline t2) = parseRows t1 ++ parseRows t2).
  { intros t1 t2. unfold parseRows, split.
    by rewrite split_from_separator, filter_app, map_app. }
  split; [apply Hbreak|]. split.
  - rewrite Hbreak. by f_equal.
  - by rewrite Hbreak, parseRows_empty_text, app_nil_r.
Qed.

Lemma trimmed_pieces_around (w1 line w2 : string) :
  all_white w1 = true → all_white w2 = true →
  map trim (split comma (w1 +:+ line +:+ w2)) = map trim (split comma line).
Proof.
  intros Hw1 Hw2.
  rewrite split_leading by by apply white_is_no_comma.
  unfold split. rewrite split_trailing by by apply white_is_no_comma.
  pose proof (split_from_not_nil comma EmptyString line) as Hsome.
  pose proof (app_removelast_last EmptyString Hsome) as Hinit.
  set (pieces := split_from comma EmptyString line) in *.
  rewrite Hinit at 3.
  destruct (removelast pieces) as [|first rest].
  - cbn [app map]. f_equal. by apply trim_around.
  - cbn [app map]. rewrite !map_app. cbn [map]. f_equal.
    + rewrite <- (append_empty_r first) at 1.
      by apply (trim_around w1 first EmptyString).
    + f_equal. f_equal.
      by apply (trim_around EmptyString (List.last pieces EmptyString) w2).
Qed.

(** X3. White space around a line, such as the carriage return a CRLF file
    leaves at its end, changes neither the row parsed from the line nor
    whether the line counts as blank. *)
Theorem white_space_around_a_line_is_ignored (w1 line w2 : string) :
  all_white w1 = true →
  all_white w2 = true →
  parseLine (w1 +:+ line +:+ w2) = parseLine line
  ∧ trim (w1 +:+ line +:+ w2) = trim line.
Proof.
  intros Hw1 Hw2. split; [|by apply trim_around].
  unfold parseLine. by rewrite trimmed_pieces_around.
Qed.

Lemma parseRows_nil_iff (text : string) : parseRows text = [] ↔ all_white text = true.
Proof.
  unfold parseRows, split.
  pose proof (lines_all_white text EmptyString) as Hlines. cbn [all_white andb] in Hlines.
  rewrite <- Hlines. clear Hlines.
  induction (split_from newline EmptyString text) as [|line lines IH]; [done|].
  cbn [forallb].
  destruct (decide (trim line ≠ EmptyString)) as [Hline|Hline].
  - rewrite filter_cons_True by done. cbn [map].
    split; [done|]. intros [Hwhite _]%andb_true_iff.
    by apply trim_empty_iff_all_white in Hwhite.
  - rewrite filter_cons_False by done.
    assert (Hwhite : all_white line = true).
    { apply trim_empty_iff_all_white. by destruct (decide (trim line = EmptyString)). }
    by rewrite Hwhite.
Qed.

(** X4. Outside a run, choosing a file fails with a [RangeError], and
    leaves the store as it was, exactly when the file holds nothing but
    white space; any other file is imported. *)
Theorem blank_file_throws (ctx : SimulationContext) (h : History) (text : string) :
  isSimulating ctx = false →
  (handleFileUpload ctx (Some text) = Threw "RangeError" ↔ all_white text = true)
  ∧ (all_white text = true → after h (handleFileUpload ctx (Some text)) = h)
  ∧ (all_white text = false →
     ∃ newState, handleFileUpload ctx (Some text) = Returned [SetUserData newState]).
Proof.
  intros Hidle. pose proof (parseRows_nil_iff text) as Hblank.
  unfold handleFileUpload. rewrite Hidle.
  destruct (parseRows text) as [|row parsed] eqn:Hparsed.
  - assert (Hwhite : all_white text = true) by by apply Hblank.
    split; [done|]. split; [done|]. congruence.
  - assert (Hwhite : all_white text = false).
    { destruct (all_white text); [|done]. by destruct Hblank as [_ Hnil]; discriminate Hnil. }
    split; [split; [done | congruence]|].
    split; [congruence|]. intros _. by eexists.
Qed.

(** X5. After an import the placeholder effect asks for one more row
    exactly when no parsed line had a comma, the appended placeholder then
    having no slot at all; as soon as one parsed row has a cell the effect
    is at rest. *)
Theorem import_settles_placeholder_unless_no_cells
    (ctx : SimulationContext) (text : string) :
  isSimulating ctx = false →
  parseRows text ≠ [] →
  ∃ newState,
    handleFileUpload ctx (Some text) = Returned [SetUserData newState]
    ∧ (placeholderEffect (withUserData ctx newState) = Returned [AddRow]
       ↔ ∀ row, row ∈ parseRows text → data row = [])
    ∧ (placeholderEffect (withUserData ctx newState) = Returned []
       ↔ ∃ row, row ∈ parseRows text ∧ data row ≠ []).
Proof.
  intros Hidle Hrows. eexists. split; [by apply handleFileUpload_idle|].
  set (lengths := map (fun row => length (data row)) (parseRows text)).
  unfold placeholderEffect, needsPlaceholder, last_row, withUserData.
  cbn [userData isSimulating rows]. rewrite Hidle, last_snoc. cbn [negb andb emptyRow data].
  assert (Hzero : max_list lengths = 0 ↔ ∀ row, row ∈ parseRows text → data row = []).
  { split.
    - intros Hmax row Hrow.
      assert (Hle : length (data row) ≤ max_list lengths).
      { apply max_list_elem_of_le, list_elem_of_fmap. by exists row. }
      destruct (data row); [done | cbn in Hle; lia].
    - intros Hnone.
      assert (Hin : max_list lengths ∈ lengths).
      { apply max_list_elem_of. subst lengths. by destruct (parseRows text). }
      apply list_elem_of_fmap in Hin as (row & -> & Hrow). by rewrite (Hnone row Hrow). }
  destruct (max_list lengths) as [|n] eqn:Hmax.
  - cbn. split; [split; [intros _; by apply Hzero | done]|].
    split; [done|]. intros (row & Hrow & Hcells).
    destruct Hzero as [Hzero _]. by rewrite (Hzero eq_refl row Hrow) in Hcells.
  - cbn. split.
    + split; [done|]. intros Hnone. apply Hzero in Hnone. discriminate.
    + split; [|done]. intros _.
      assert (Hin : max_list lengths ∈ lengths).
      { apply max_list_elem_of. subst lengths. by destruct (parseRows text). }
      apply list_elem_of_fmap in Hin as (row & Hlength & Hrow).
      exists row. split; [done|]. intros Hnone. rewrite Hnone, Hmax in Hlength. done.
Qed.

End ImportProperties.

Section FurtherImputationProperties.
Context {N : JsNumber}.

(** ** Reading and writing cells *)

Lemma read_spread (d : list slot) (i : jsint) : read (spread d) i = read d i.
Proof.
  unfold read, spread. destruct (array_index i) as [k|]; [|done].
  change (map ?f d) with (f <$> d). rewrite list_lookup_fmap.
  by destruct (d !! k) as [[]|].
Qed.

Lemma read_in_range (d : list slot) (i : jsint) (v : number) :
  read d i = Num v → ∃ k, array_index i = Some k ∧ d !! k = Some (Num v).
Proof.
  unfold read. destruct (array_index i) as [k|]; [|done].
  destruct (d !! k) as [[]|] eqn:Hk; try done. intros [= ->]. by exists k.
Qed.

Lemma array_index_one_minus (i : jsint) (k : nat) :
  array_index i = Some k → array_index (one_minus i) ≠ Some k.
Proof.
  destruct i as [z|]; [|done]. unfold array_index, one_minus.
  destruct ((0 <=? z)%Z && (z <? 4294967295)%Z) eqn:Hz; [|done].
  intros [= <-].
  destruct ((0 <=? 1 - z)%Z && (1 - z <? 4294967295)%Z) eqn:Hother; [|done].
  intros [= Hsame]. lia.
Qed.

(** Writing one cell leaves every other cell of the array as it was. *)
Lemma read_write_other (d : list slot) (i j : jsint) (s : slot) (k : nat) :
  array_index i = Some k → k < length d → array_index j ≠ Some k →
  read (write d j s) i = read d i.
Proof.
  intros Hi Hk Hj. unfold read, write. rewrite Hi.
  destruct (array_index j) as [k'|]; [|done].
  assert (k' ≠ k) by congruence.
  destruct (k' <? length d) eqn:Hin.
  - by rewrite list_lookup_insert_ne.
  - by rewrite lookup_app_l.
Qed.

Lemma imputeRow_keeps_reference (effect : number) (row : DataRow) (v : number) :
  read (data row) (assignment row) = Num v →
  read (data (imputeRow effect row)) (assignment row) = Num v.
Proof.
  intros Hread. unfold imputeRow. cbn [data].
  rewrite !read_spread, Hread. cbn [is_null negb].
  destruct (read_in_range _ _ _ Hread) as (k & Hindex & Hk).
  rewrite (read_write_other _ _ _ _ k); [by rewrite read_spread | done | |].
  - unfold spread. rewrite length_map. by eapply lookup_lt_Some.
  - by apply array_index_one_minus.
Qed.

(** X6. The value a row was measured with is never altered: whatever the
    width of the row and wherever it stands in the grid, a number in the slot
    the row is assigned to is still there after the treatment effect has
    been applied, and the row keeps its assignment. *)
Theorem measured_value_survives_imputation
    (ctx : SimulationContext) (effect : number) (i : nat) (row : DataRow) (v : number) :
  isSimulating ctx = false →
  rows (userData ctx) !! i = Some row →
  read (data row) (assignment row) = Num v →
  ∃ newData row',
    applyTreatmentEffect ctx effect = Returned [SetUserData newData]
    ∧ rows newData !! i = Some row'
    ∧ assignment row' = assignment row
    ∧ read (data row') (assignment row') = Num v.
Proof.
  intros Hidle Hrow Hread.
  eexists.
  exists (if i =? length (rows (userData ctx)) - 1 then row else imputeRow effect row).
  split; [by apply applyTreatmentEffect_idle|]. cbn [rows].
  split; [by apply imputeRows_lookup|].
  destruct (i =? length (rows (userData ctx)) - 1); [done|].
  split; [done|].
  change (assignment (imputeRow effect row)) with (assignment row).
  by apply imputeRow_keeps_reference.
Qed.

(** ** Rows whose measured outcome is in place *)

Lemma measured_cases (row : DataRow) :
  measured row →
  ∃ control treatment assigned,
    row = {| data := [control; treatment]; assignment := JInt assigned |}
    ∧ plain control = true ∧ plain treatment = true
    ∧ ((assigned = 0%Z ∧ (is_null control = false ∨ treatment = Null))
       ∨ (assigned = 1%Z ∧ (is_null treatment = false ∨ control = Null))).
Proof.
  intros [(control & treatment & Hdata & Hc & Ht & Hassigned) Hplace].
  destruct row as [d a]. cbn [data assignment] in *. subst d.
  destruct Hassigned as [-> | ->].
  - exists control, treatment, 0%Z. repeat split; try done. left. split; [done|].
    destruct Hplace as [Hplace | [= -> ->]]; [|by right].
    left. by destruct control.
  - exists control, treatment, 1%Z. repeat split; try done. right. split; [done|].
    destruct Hplace as [Hplace | [= -> ->]]; [|by right].
    left. by destruct treatment.
Qed.

Ltac measured_row Hrow :=
  apply measured_cases in Hrow
    as (control & treatment & assigned & -> & Hcontrol & Htreatment & Hshape);
  destruct control; try discriminate Hcontrol;
  destruct treatment; try discriminate Htreatment;
  destruct Hshape as [[-> [Hplace | Hplace]] | [-> [Hplace | Hplace]]];
  try discriminate Hplace.

Lemma imputeRow_again (first second : number) (row : DataRow) :
  measured row →
  imputeRow second (imputeRow first row) = imputeRow second row.
Proof. intros Hrow. measured_row Hrow; reflexivity. Qed.

Lemma imputeRow_contribution (effect : number) (c : nat) (row : DataRow) :
  measured row →
  contribution c (imputeRow effect row) = contribution c row.
Proof.
  intros Hrow. measured_row Hrow; by destruct c as [|[|c]].
Qed.

Lemma flat_map_imap_pointwise {A B : Type} (g : A → list B) (l : list A) :
  ∀ f : nat → A → A,
    (∀ i x, l !! i = Some x → g (f i x) = g x) →
    flat_map g (imap f l) = flat_map g l.
Proof.
  induction l as [|x l IH]; intros f Hsame; [done|].
  rewrite imap_cons. cbn [flat_map]. f_equal.
  - by apply (Hsame 0).
  - apply IH. intros i y Hy. by apply (Hsame (S i)).
Qed.

(** X7. The effect applied last wins. On a grid whose rows before the last
    are measured observations, applying a second treatment effect to the
    imputed grid gives what applying it to the original grid gives; applying
    the same effect twice changes nothing more. *)
Theorem last_treatment_effect_wins
    (ctx : SimulationContext) (first second : number) :
  isSimulating ctx = false →
  (∀ i row, rows (userData ctx) !! i = Some row →
            i ≠ length (rows (userData ctx)) - 1 → measured row) →
  ∃ imputed,
    applyTreatmentEffect ctx first = Returned [SetUserData imputed]
    ∧ applyTreatmentEffect (withUserData ctx imputed) second
      = applyTreatmentEffect ctx second
    ∧ applyTreatmentEffect (withUserData ctx imputed) first
      = Returned [SetUserData imputed].
Proof.
  intros Hidle Hrows.
  assert (Hagain : ∀ effect,
    imputeRows effect (imputeRows first (rows (userData ctx)))
    = imputeRows effect (rows (userData ctx))).
  { intros effect. apply list_eq. intros i.
    destruct (rows (userData ctx) !! i) as [row|] eqn:Hrow.
    - rewrite (imputeRows_lookup _ _ _ _ Hrow).
      rewrite (imputeRows_lookup effect _ i _ (imputeRows_lookup first _ _ _ Hrow)).
      rewrite imputeRows_length.
      destruct (Nat.eqb_spec i (length (rows (userData ctx)) - 1)); [done|].
      f_equal. apply imputeRow_again. by eapply Hrows.
    - rewrite !(proj2 (lookup_ge_None _ _)); [done| |];
        rewrite ?imputeRows_length; by apply lookup_ge_None. }
  eexists. split; [by apply applyTreatmentEffect_idle|].
  rewrite !applyTreatmentEffect_idle by done.
  cbn [withUserData userData rows controlColumnIndex columnNames].
  by rewrite !Hagain.
Qed.

(** X8. A row whose assignment is NaN, as [parseInt] returns for a last
    field that is no number, is passed over: the treatment effect leaves its
    cells as they are and no column average counts it. *)
Theorem row_assigned_to_NaN_is_passed_over
    (effect : number) (row : DataRow) (names : list string) (before after : list DataRow) :
  assignment row = JNaN →
  data (imputeRow effect row) = spread (data row)
  ∧ assignment (imputeRow effect row) = JNaN
  ∧ (Forall (fun cell => plain cell = true) (data row) → imputeRow effect row = row)
  ∧ calculateColumnAverages names (before ++ row :: after)
    = calculateColumnAverages names (before ++ after).
Proof.
  intros Hnan.
  assert (Hdata : data (imputeRow effect row) = spread (data row)).
  { unfold imputeRow. by rewrite Hnan. }
  split; [exact Hdata|]. split; [exact Hnan|]. split.
  - intros Hplain. destruct row as [d a]. cbn [data assignment] in *. subst a.
    unfold imputeRow. cbn. f_equal. by apply spread_plain.
  - rewrite !calculateColumnAverages_contributions. apply imap_ext. intros c name _.
    cbn beta. rewrite !contributions_app. unfold contributions at 2. cbn [flat_map].
    unfold contribution at 1. by rewrite Hnan.
Qed.

(** X9. Applying a treatment effect never touches the last row, so it
    neither triggers nor holds back the placeholder effect. *)
Theorem imputation_leaves_placeholder_effect_alone
    (ctx : SimulationContext) (effect : number) :
  isSimulating ctx = false →
  ∃ imputed,
    applyTreatmentEffect ctx effect = Returned [SetUserData imputed]
    ∧ placeholderEffect (withUserData ctx imputed) = placeholderEffect ctx.
Proof.
  intros Hidle. eexists. split; [by apply applyTreatmentEffect_idle|].
  unfold placeholderEffect, needsPlaceholder, last_row, withUserData.
  cbn [userData isSimulating rows]. by rewrite imputeRows_last.
Qed.

(** X10. The column averages read the measured slots only: on a grid whose
    rows before the last are measured observations, applying a treatment
    effect changes none of the averages. *)
Theorem imputation_keeps_column_averages
    (ctx : SimulationContext) (effect : number) :
  isSimulating ctx = false →
  (∀ i row, rows (userData ctx) !! i = Some row →
            i ≠ length (rows (userData ctx)) - 1 → measured row) →
  ∃ imputed,
    applyTreatmentEffect ctx effect = Returned [SetUserData imputed]
    ∧ calculateColumnAverages (columnNames imputed) (rows imputed)
      = calculateColumnAverages (columnNames (userData ctx)) (rows (userData ctx)).
Proof.
  intros Hidle Hrows. eexists. split; [by apply applyTreatmentEffect_idle|].
  cbn [rows columnNames]. rewrite !calculateColumnAverages_contributions.
  apply imap_ext. intros c name _. cbn beta. f_equal.
  unfold contributions, imputeRows. apply flat_map_imap_pointwise.
  intros i row Hrow.
  destruct (Nat.eqb_spec i (length (rows (userData ctx)) - 1)); [done|].
  apply imputeRow_contribution. by eapply Hrows.
Qed.

End FurtherImputationProperties.

Section DisplayProperties.
Context {N : JsNumber}.

(** ** dataToDisplay *)

Lemma last_result (earlier : list SimulationResult) (result : SimulationResult) :
  match earlier ++ [result] with
  | first :: others => List.last others first = result
  | [] => False
  end.
Proof.
  destruct earlier as [|first earlier]; [done|].
  cbn [app]. apply last_last.
Qed.

Lemma dataToDisplay_simulating
    (ctx : SimulationContext) (earlier : list SimulationResult) (result : SimulationResult) :
  isSimulating ctx = true →
  simulationResults ctx = Some (earlier ++ [result]) →
  dataToDisplay ctx
  = match trialRows result with
    | first :: _ => Returned (trialRows result ++ [emptyRow (length (data first))])
    | [] => Threw "TypeError"
    end.
Proof.
  intros Hrun Hresults. unfold dataToDisplay. rewrite Hrun, Hresults.
  pose proof (last_result earlier result) as Hlast.
  destruct (earlier ++ [result]) as [|first others]; [done|]. by rewrite Hlast.
Qed.

(** X11. During a run the grid shows the rows of the latest trial followed
    by one fully-absent row as wide as the trial's first row, and the
    averages under it are those of the trial's rows alone, under the user's
    column names. *)
Theorem running_grid_shows_latest_trial
    (ctx : SimulationContext) (earlier : list SimulationResult) (result : SimulationResult)
    (first : DataRow) (others : list DataRow) :
  isSimulating ctx = true →
  simulationResults ctx = Some (earlier ++ [result]) →
  trialRows result = first :: others →
  ∃ dummyRow,
    dataToDisplay ctx = Returned (trialRows result ++ [dummyRow])
    ∧ every_null (data dummyRow) = true
    ∧ length (data dummyRow) = length (data first)
    ∧ columnAverages ctx
      = Returned (calculateColumnAverages (columnNames (userData ctx)) (trialRows result)).
Proof.
  intros Hrun Hresults Hrows.
  pose proof (dataToDisplay_simulating ctx earlier result Hrun Hresults) as Hshown.
  rewrite Hrows in Hshown. rewrite Hrows.
  exists (emptyRow (length (data first))).
  split; [exact Hshown|].
  split; [apply every_null_replicate|].
  split; [apply length_replicate|].
  unfold columnAverages. rewrite Hshown. f_equal.
  rewrite !calculateColumnAverages_contributions. apply imap_ext. intros c name _.
  cbn beta. rewrite contributions_app. unfold contributions at 2. cbn [flat_map].
  rewrite contribution_every_null by apply every_null_replicate.
  by rewrite !app_nil_r.
Qed.

(** X12. The grid fails to render, with a [TypeError], exactly when a run
    is on and its latest trial has no rows; in every other case it shows
    rows, the user's own outside a run or before the first trial. *)
Theorem grid_fails_only_on_empty_trial (ctx : SimulationContext) :
  (dataToDisplay ctx = Threw "TypeError"
   ↔ isSimulating ctx = true
     ∧ ∃ earlier result,
         simulationResults ctx = Some (earlier ++ [result]) ∧ trialRows result = [])
  ∧ (∀ error, dataToDisplay ctx = Threw error → error = "TypeError")
  ∧ (isSimulating ctx = false ∨ simulationResults ctx = None ∨ simulationResults ctx = Some [] →
     dataToDisplay ctx = Returned (rows (userData ctx)))
  ∧ (∀ error, columnAverages ctx = Threw error ↔ dataToDisplay ctx = Threw error).
Proof.
  assert (Hfallback :
    isSimulating ctx = false ∨ simulationResults ctx = None ∨ simulationResults ctx = Some [] →
    dataToDisplay ctx = Returned (rows (userData ctx))).
  { unfold dataToDisplay. intros [-> | [-> | ->]]; [done| |]; by destruct (isSimulating ctx). }
  split; [|split; [|split; [exact Hfallback|]]].
  - split.
    + intros Hthrown.
      destruct (isSimulating ctx) eqn:Hrun; [|by rewrite Hfallback in Hthrown; auto].
      split; [done|].
      destruct (simulationResults ctx) as [results|] eqn:Hresults;
        [|by rewrite Hfallback in Hthrown; auto].
      destruct results as [|result earlier _] using rev_ind;
        [by rewrite Hfallback in Hthrown; auto|].
      exists earlier, result. split; [done|].
      rewrite (dataToDisplay_simulating ctx earlier result Hrun Hresults) in Hthrown.
      by destruct (trialRows result).
    + intros (Hrun & earlier & result & Hresults & Hrows).
      by rewrite (dataToDisplay_simulating ctx earlier result Hrun Hresults), Hrows.
  - intros error. unfold dataToDisplay.
    destruct (isSimulating ctx); [|done].
    destruct (simulationResults ctx) as [[|first others]|]; [done| |done].
    destruct (trialRows _); [|done]. by intros [= <-].
  - intros error. unfold columnAverages.
    destruct (dataToDisplay ctx); [by split|].
    split; by intros [= ->].
Qed.

(** ** renderRows *)


End DisplayProperties.

Section PlotProperties.
Context {N : JsNumber} {M : JsMath N}.

(** ** calculatePlotData *)

Lemma max_list_bound (bound : nat) (l : list nat) :
  Forall (fun n => n ≤ bound) l → max_list l ≤ bound.
Proof. induction 1 as [|n l Hn _ IH]; cbn; lia. Qed.

(** After the reduce, bin [k] holds the number of values that fall into it. *)
Lemma countBins_from (low size : number) (simulationData : list number) :
  ∀ (acc : gmap string nat) (k : string),
    default 0 (foldl (fun acc val =>
                        <[binOf low size val := default 0 (acc !! binOf low size val) + 1]> acc)
                     acc simulationData !! k)
    = default 0 (acc !! k)
      + length (filter (fun val => binOf low size val = k) simulationData).
Proof.
  induction simulationData as [|val rest IH]; intros acc k.
  - cbn. lia.
  - cbn [foldl]. rewrite IH.
    destruct (decide (binOf low size val = k)) as [<-|Hother].
    + rewrite lookup_insert_eq, filter_cons_True by done. cbn. lia.
    + rewrite lookup_insert_ne, filter_cons_False by done. done.
Qed.

Lemma countBins_lookup (low size : number) (simulationData : list number) (k : string) :
  default 0 (countBins low size simulationData !! k)
  = length (filter (fun val => binOf low size val = k) simulationData).
Proof. unfold countBins. by rewrite countBins_from, lookup_empty. Qed.

Lemma countBins_stored (low size : number) (simulationData : list number)
    (k : string) (count : nat) :
  countBins low size simulationData !! k = Some count →
  count = length (filter (fun val => binOf low size val = k) simulationData) ∧ 0 < count.
Proof.
  intros Hk. split.
  - by rewrite <- countBins_lookup, Hk.
  - revert Hk. unfold countBins.
    generalize (∅ : gmap string nat), (map_Forall_empty (fun _ n => 0 < n) (M := gmap string)).
    induction simulationData as [|val rest IH]; intros acc Hacc Hk.
    + by apply (Hacc k).
    + cbn [foldl] in Hk. eapply IH; [|exact Hk].
      apply map_Forall_insert_2; [lia | done].
Qed.

Lemma occupancy_at_least_one (simulationData : list number) (observedStat val : number) :
  val ∈ simulationData → 1 ≤ occupancy simulationData observedStat val.
Proof.
  intros Hval. unfold occupancy.
  assert (Hin : val ∈ filter (fun other =>
      binOf (minResult simulationData observedStat) (binSize simulationData observedStat) other
      = binOf (minResult simulationData observedStat) (binSize simulationData observedStat) val)
      simulationData) by by apply list_elem_of_filter.
  destruct (filter _ simulationData); [by apply elem_of_nil in Hin | cbn; lia].
Qed.

(** X14. The observed-statistic line of the plot is drawn one above the
    fullest bin of the reduce: [maxFrequency] is the largest number of
    simulated values that share a bin, is reached by the bin of some value
    when there are values, never exceeds their number, and is 0 exactly when
    there are none. *)
Theorem line_rises_above_fullest_bin
    (simulationData : list number) (observedStat : number) (theme : string) :
  let top := maxFrequency simulationData observedStat in
  line_y (calculatePlotData simulationData observedStat theme).2 = [0; top + 1]
  ∧ top ≤ length simulationData
  ∧ (top = 0 ↔ simulationData = [])
  ∧ (∀ val, val ∈ simulationData →
       1 ≤ occupancy simulationData observedStat val ≤ top)
  ∧ (simulationData ≠ [] →
     ∃ val, val ∈ simulationData ∧ occupancy simulationData observedStat val = top).
Proof.
  intros top. subst top. unfold maxFrequency.
  set (low := minResult simulationData observedStat).
  set (size := binSize simulationData observedStat).
  set (acc := countBins low size simulationData).
  set (counts := (map_to_list acc).*2 ++ [0]).
  assert (Hstored : ∀ count, count ∈ counts →
    count = 0 ∨ ∃ k, acc !! k = Some count).
  { intros count [Hcount | Hzero%list_elem_of_singleton]%elem_of_app; [|by left].
    right. apply list_elem_of_fmap in Hcount as ([k count'] & -> & Hk).
    exists k. by apply elem_of_map_to_list. }
  assert (Hfull : ∀ val, val ∈ simulationData →
    1 ≤ occupancy simulationData observedStat val ≤ max_list counts).
  { intros val Hval. pose proof (occupancy_at_least_one _ observedStat _ Hval) as Hone.
    split; [done|]. apply max_list_elem_of_le, elem_of_app. left.
    apply list_elem_of_fmap. exists (binOf low size val, occupancy simulationData observedStat val).
    split; [done|]. apply elem_of_map_to_list.
    pose proof (countBins_lookup low size simulationData (binOf low size val)) as Hbin.
    fold acc in Hbin. unfold occupancy in *. fold low size in Hone |- *.
    destruct (acc !! binOf low size val) as [count|]; cbn in Hbin; [by rewrite Hbin | lia]. }
  split; [reflexivity|]. split; [|split; [|split; [exact Hfull|]]].
  - apply max_list_bound, Forall_forall. intros count Hcount.
    destruct (Hstored count Hcount) as [-> | [k Hk]]; [lia|].
    apply countBins_stored in Hk as [-> _]. apply length_filter.
  - split.
    + intros Hzero. destruct simulationData as [|val rest]; [done|].
      specialize (Hfull val (list_elem_of_here _ _)). lia.
    + intros ->. reflexivity.
  - intros Hsome.
    assert (Hmax : max_list counts ∈ counts).
    { apply max_list_elem_of. subst counts. by destruct ((map_to_list acc).*2). }
    destruct (Hstored _ Hmax) as [Hzero | [k Hk]].
    + destruct simulationData as [|val rest]; [done|].
      specialize (Hfull val (list_elem_of_here _ _)). lia.
    + apply countBins_stored in Hk as [Hcount Hpositive].
      destruct (filter (fun val => binOf low size val = k) simulationData)
        as [|val vals] eqn:Hbin; [cbn in Hcount; lia|].
      assert (Hval : val ∈ filter (fun val => binOf low size val = k) simulationData)
        by (rewrite Hbin; apply list_elem_of_here).
      apply list_elem_of_filter in Hval as [<- Hval].
      exists val. split; [done|]. unfold occupancy. fold low size.
      by rewrite Hbin.
Qed.

End PlotProperties.

Section AssignmentOutsideTheRow.
Context {N : JsNumber}.

(** X15. An assignment that points outside the row makes the reference
    read [undefined], which counts as a value. Assigned at or beyond its
    width (2 or more), the row keeps its cells, the write going to a
    negative key; assigned to a negative index, a row of at most two cells
    grows: NaN is stored at index [1 - assignment], beyond the cells. *)
Theorem assignment_outside_the_row (effect : number) (row : DataRow) (z : Z) :
  assignment row = JInt z →
  ((2 ≤ z)%Z ∧ length (data row) ≤ Z.to_nat z)
  ∨ ((-4294967294 < z < 0)%Z ∧ length (data row) ≤ 2) →
  data (imputeRow effect row)
  = if (0 <=? z)%Z then spread (data row)
    else spread (data row)
         ++ replicate (Z.to_nat (1 - z) - length (data row)) Hole ++ [Num nan].
Proof.
  intros Hassigned Hrange. unfold imputeRow. rewrite Hassigned. cbn [data].
  assert (Hread : read (spread (data row)) (JInt z) = Undefined).
  { rewrite read_spread. unfold read, array_index.
    destruct Hrange as [[Hz Hwidth] | [Hz _]].
    - destruct ((0 <=? z)%Z && (z <? 4294967295)%Z); [|done].
      by rewrite (proj2 (lookup_ge_None _ _)).
    - by replace (0 <=? z)%Z with false by (symmetry; apply Z.leb_gt; lia). }
  rewrite Hread. cbn [is_null negb slot_plus one_minus].
  unfold write, array_index.
  destruct Hrange as [[Hz Hwidth] | [Hz Hwidth]].
  - replace (0 <=? z)%Z with true by (symmetry; apply Z.leb_le; lia).
    by replace (0 <=? 1 - z)%Z with false by (symmetry; apply Z.leb_gt; lia).
  - replace (0 <=? z)%Z with false by (symmetry; apply Z.leb_gt; lia).
    replace (0 <=? 1 - z)%Z with true by (symmetry; apply Z.leb_le; lia).
    replace (1 - z <? 4294967295)%Z with true by (symmetry; apply Z.ltb_lt; lia).
    cbn [andb]. unfold spread. rewrite length_map.
    by replace (Z.to_nat (1 - z) <? length (data row)) with false
      by (symmetry; apply Nat.ltb_ge; lia).
Qed.

End AssignmentOutsideTheRow.

(** ** The further properties on sample grids *)

Lemma white_space_around_a_line_is_ignored_witness :
  parseLine (N := Rational.numbers)
    (" " +:+ "5,,0" +:+ String (ascii_of_nat 13) EmptyString)
  = parseLine "5,,0".
Proof.
  apply (white_space_around_a_line_is_ignored
           " " "5,,0" (String (ascii_of_nat 13) EmptyString)); reflexivity.
Defined.

Lemma blank_file_throws_witness :
  handleFileUpload (Sample.idle [Sample.placeholder]) (Some " ") = Threw "RangeError".
Proof.
  destruct (blank_file_throws (Sample.idle [Sample.placeholder])
              (Sample.store [Sample.placeholder]) " " eq_refl) as [Hblank _].
  apply Hblank. reflexivity.
Defined.

Lemma import_settles_placeholder_unless_no_cells_witness :
  ∃ newState,
    handleFileUpload (Sample.idle [Sample.placeholder]) (Some "5,,0")
    = Returned [SetUserData newState]
    ∧ placeholderEffect (withUserData (Sample.idle [Sample.placeholder]) newState)
      = Returned [].
Proof.
  destruct (import_settles_placeholder_unless_no_cells
              (Sample.idle [Sample.placeholder]) "5,,0" eq_refl
              (fun H : parseRows "5,,0" = [] => nil_cons (eq_sym H)))
    as (newState & Hcall & _ & Hrest).
  exists newState. split; [exact Hcall|]. apply Hrest.
  exists (Sample.row (Sample.value 5) Null 0). split; [apply list_elem_of_here | discriminate].
Defined.

Lemma measured_value_survives_imputation_witness :
  ∃ newData row',
    applyTreatmentEffect
      (Sample.idle [Sample.row (Sample.value 5) (Sample.value 8) 0; Sample.placeholder])
      Sample.one
    = Returned [SetUserData newData]
    ∧ rows newData !! 0 = Some row'
    ∧ assignment row' = JInt 0
    ∧ read (data row') (assignment row') = Sample.value 5.
Proof.
  exact (measured_value_survives_imputation
           (Sample.idle [Sample.row (Sample.value 5) (Sample.value 8) 0; Sample.placeholder])
           Sample.one 0 (Sample.row (Sample.value 5) (Sample.value 8) 0)
           (Some (inject_Z 5)) eq_refl eq_refl eq_refl).
Defined.

Lemma sample_grid_is_measured (i : nat) (row : DataRow) :
  [Sample.row (Sample.value 5) Null 0; Sample.row Null (Sample.value 8) 1;
   Sample.placeholder] !! i = Some row →
  i ≠ 2 →
  measured row.
Proof.
  destruct i as [|[|[|i]]]; intros Hrow Hi; try done; injection Hrow as <-;
    (split; [eexists _, _; repeat split; auto | auto]).
Qed.

Lemma last_treatment_effect_wins_witness :
  ∃ imputed,
    applyTreatmentEffect
      (Sample.idle [Sample.row (Sample.value 5) Null 0; Sample.row Null (Sample.value 8) 1;
                    Sample.placeholder])
      Sample.one
    = Returned [SetUserData imputed]
    ∧ applyTreatmentEffect
        (withUserData
           (Sample.idle [Sample.row (Sample.value 5) Null 0;
                         Sample.row Null (Sample.value 8) 1; Sample.placeholder])
           imputed)
        (Some (inject_Z 3))
      = applyTreatmentEffect
          (Sample.idle [Sample.row (Sample.value 5) Null 0;
                        Sample.row Null (Sample.value 8) 1; Sample.placeholder])
          (Some (inject_Z 3)).
Proof.
  destruct (last_treatment_effect_wins
              (Sample.idle [Sample.row (Sample.value 5) Null 0;
                            Sample.row Null (Sample.value 8) 1; Sample.placeholder])
              Sample.one (Some (inject_Z 3)) eq_refl sample_grid_is_measured)
    as (imputed & Hfirst & Hsecond & _).
  exists imputed. split; [exact Hfirst | exact Hsecond].
Defined.

Lemma row_assigned_to_NaN_is_passed_over_witness :
  imputeRow Sample.one {| data := [Sample.value 5; Null]; assignment := JNaN |}
  = {| data := [Sample.value 5; Null]; assignment := JNaN |}.
Proof.
  destruct (row_assigned_to_NaN_is_passed_over Sample.one
              {| data := [Sample.value 5; Null]; assignment := JNaN |}
              ["Control"; "Treatment"] [] [] eq_refl)
    as (_ & _ & Hsame & _).
  apply Hsame. repeat constructor.
Defined.

Lemma imputation_leaves_placeholder_effect_alone_witness :
  ∃ imputed,
    applyTreatmentEffect
      (Sample.idle [Sample.row (Sample.value 5) Null 0; Sample.placeholder]) Sample.one
    = Returned [SetUserData imputed]
    ∧ placeholderEffect
        (withUserData (Sample.idle [Sample.row (Sample.value 5) Null 0; Sample.placeholder])
           imputed)
      = Returned [].
Proof.
  exact (imputation_leaves_placeholder_effect_alone
           (Sample.idle [Sample.row (Sample.value 5) Null 0; Sample.placeholder])
           Sample.one eq_refl).
Defined.

Lemma imputation_keeps_column_averages_witness :
  ∃ imputed,
    applyTreatmentEffect
      (Sample.idle [Sample.row (Sample.value 5) Null 0; Sample.row Null (Sample.value 8) 1;
                    Sample.placeholder])
      Sample.one
    = Returned [SetUserData imputed]
    ∧ calculateColumnAverages (columnNames imputed) (rows imputed)
      = [Some (Some (inject_Z 5)); Some (Some (inject_Z 8))].
Proof.
  exact (imputation_keeps_column_averages
           (Sample.idle [Sample.row (Sample.value 5) Null 0;
                         Sample.row Null (Sample.value 8) 1; Sample.placeholder])
           Sample.one eq_refl sample_grid_is_measured).
Defined.

Lemma running_grid_shows_latest_trial_witness :
  ∃ dummyRow,
    dataToDisplay
      {| userData := Sample.grid 0 [Sample.placeholder];
         simulationResults :=
           Some [{| trialRows := [Sample.row (Sample.value 5) Null 1;
                                  Sample.row Null (Sample.value 8) 0] |}];
         isSimulating := true |}
    = Returned ([Sample.row (Sample.value 5) Null 1; Sample.row Null (Sample.value 8) 0]
                ++ [dummyRow])
    ∧ every_null (data dummyRow) = true.
Proof.
  destruct (running_grid_shows_latest_trial
              {| userData := Sample.grid 0 [Sample.placeholder];
                 simulationResults :=
                   Some [{| trialRows := [Sample.row (Sample.value 5) Null 1;
                                          Sample.row Null (Sample.value 8) 0] |}];
                 isSimulating := true |}
              []
              {| trialRows := [Sample.row (Sample.value 5) Null 1;
                               Sample.row Null (Sample.value 8) 0] |}
              (Sample.row (Sample.value 5) Null 1)
              [Sample.row Null (Sample.value 8) 0]
              eq_refl eq_refl eq_refl)
    as (dummyRow & Hshown & Habsent & _).
  exists dummyRow. split; [exact Hshown | exact Habsent].
Defined.


Lemma assignment_outside_the_row_witness :
  data (imputeRow Sample.one {| data := [Sample.value 5; Null]; assignment := JInt (-1) |})
  = [Sample.value 5; Null; @Num Rational.numbers None].
Proof.
  apply (assignment_outside_the_row Sample.one
           {| data := [Sample.value 5; Null]; assignment := JInt (-1) |} (-1)).
  - reflexivity.
  - right. split; [lia | simpl; lia].
Defined.

(** ** The statistic of a grid that holds only the placeholder *)

Section ObservedStatisticProperties.
Context {N : JsNumber} {M : JsMath N} {T : JsTruthy N}.

Lemma eligible_without_placeholder (rs : list DataRow) (p : DataRow) :
  every_null (data p) = true → eligible (rs ++ [p]) = eligible rs.
Proof.
  intros Habsent. unfold eligible. rewrite filter_app.
  rewrite (filter_cons_False _ p []) by (by rewrite Habsent).
  by rewrite filter_nil, app_nil_r.
Qed.


End ObservedStatisticProperties.


